(** * Waste collection schedule sources: Barking & Dagenham and Woollahra

    A shallow embedding of the two source plugins
    [source/lbbd_gov_uk.py] and [source/woollahra_nsw_gov_au.py], and the
    properties their description states about them.

    Conventions of the embedding.
    - A Python [str] is a [string]; its characters are the code points
      below 256.
    - A value obtained from [json.loads] / [r.json()] is a [json]; Python's
      [None] is [JNull].  A JSON object keeps its members in insertion
      order, as a Python [dict] does.  Numbers are the integers; a float
      is not modelled.
    - A raised exception is a value of [exn]; code that may raise returns a
      [res].
    - Code that talks to the network runs in a state monad over [world],
      which counts the requests made and logs every request and sleep.
    - What the imported libraries do is a field of [Externals]: the
      upstream, [json.loads], the HTML parser, the date parser and the
      clock the date parser reads. *)

From Stdlib Require Import ZArith Ascii String List Bool Lia.
From Stdlib Require DecimalString.
From stdpp Require Import base option list strings gmap.

Import ListNotations.
Local Open Scope string_scope.
Local Open Scope Z_scope.
Local Open Scope list_scope.

(* ===================================================================== *)
(** ** Python strings *)
(* ===================================================================== *)

(** [str.isspace] on one character, code points below 256:
    TAB..CR, FS..US, space, NEL and NBSP. *)
Definition is_space (c : ascii) : bool :=
  let n := nat_of_ascii c in
  ((9 <=? n) && (n <=? 13) || (28 <=? n) && (n <=? 32)
   || (n =? 133) || (n =? 160))%nat.

(** [str.lower] on one character: A-Z, and the Latin-1 capitals
    U+00C0..U+00DE except the multiplication sign U+00D7. *)
Definition lower_char (c : ascii) : ascii :=
  let n := nat_of_ascii c in
  if ((65 <=? n) && (n <=? 90)
      || (192 <=? n) && (n <=? 222) && negb (n =? 215))%nat
  then ascii_of_nat (n + 32) else c.

Fixpoint lower (s : string) : string :=
  match s with
  | EmptyString => EmptyString
  | String c s' => String (lower_char c) (lower s')
  end.

Fixpoint lstrip (s : string) : string :=
  match s with
  | String c s' => if is_space c then lstrip s' else s
  | EmptyString => EmptyString
  end.

Fixpoint rstrip (s : string) : string :=
  match s with
  | EmptyString => EmptyString
  | String c s' =>
      match rstrip s' with
      | EmptyString => if is_space c then EmptyString else String c EmptyString
      | t => String c t
      end
  end.

(** [s.strip()] *)
Definition strip (s : string) : string := rstrip (lstrip s).

(** [needle in hay] *)
Fixpoint contains (needle hay : string) : bool :=
  String.prefix needle hay
  || match hay with
     | EmptyString => false
     | String _ hay' => contains needle hay'
     end.

(** [str(n)] for an integer. *)
Definition str_int (n : Z) : string :=
  DecimalString.NilZero.string_of_int (Z.to_int n).

(* ===================================================================== *)
(** ** JSON values, truthiness, subscripts *)
(* ===================================================================== *)

#[warning="-register-all"]
Inductive json : Type :=
| JNull
| JBool (b : bool)
| JInt (n : Z)
| JStr (s : string)
| JArr (items : list json)
| JObj (members : list (string * json)).

(** [bool(v)]: [None], [False], [0], the empty string, the empty list and
    the empty dict are falsy. *)
Definition truthy (v : json) : bool :=
  match v with
  | JNull => false
  | JBool b => b
  | JInt n => negb (n =? 0)
  | JStr s => negb (String.eqb s "")
  | JArr l => match l with [] => false | _ => true end
  | JObj m => match m with [] => false | _ => true end
  end.

Inductive value_error : Type :=
| time_data_does_not_match (data : string)
| unconverted_data_remains (rest : string)
| day_is_out_of_range_for_month
| year_is_out_of_range (y : Z)
| message (msg : string).

(** The exceptions the two modules raise or let pass; [raised_in_library]
    is an exception of the named class that an imported library raises and
    no [except] clause of the module names. *)
Inductive exn : Type :=
| Exception (msg : string)
| ValueError (why : value_error)
| RuntimeError (msg : string)
| RequestException (msg : string)
| JSONDecodeError
| KeyError (key : json)
| IndexError
| TypeError
| AttributeError
| bs4_raised
| raised_in_library (exception : string).

Inductive res (A : Type) : Type :=
| Ok (a : A)
| Err (e : exn).
Arguments Ok {A} a.
Arguments Err {A} e.

Definition res_bind {A B} (r : res A) (k : A -> res B) : res B :=
  match r with
  | Ok a => k a
  | Err e => Err e
  end.

Declare Scope res_scope.
Delimit Scope res_scope with res.
Notation "x <- r ;; k" := (res_bind r (fun x => k))
  (at level 100, r at next level, right associativity) : res_scope.

(** [for x in xs: ys.append(f(x))], stopping at the first exception. *)
Fixpoint res_map {A B} (f : A -> res B) (xs : list A) : res (list B) :=
  match xs with
  | [] => Ok []
  | x :: xs' =>
      (y <- f x ;;
       ys <- res_map f xs' ;;
       Ok (y :: ys))%res
  end.

Fixpoint assoc (k : string) (m : list (string * json)) : option json :=
  match m with
  | [] => None
  | (k', v) :: m' => if String.eqb k k' then Some v else assoc k m'
  end.

(** [v[key]] with a string key. *)
Definition subscript (v : json) (key : string) : res json :=
  match v with
  | JObj m =>
      match assoc key m with
      | Some x => Ok x
      | None => Err (KeyError (JStr key))
      end
  | _ => Err TypeError
  end.

(** [v.get(key)]: only a dict has the method. *)
Definition get (v : json) (key : string) : res json :=
  match v with
  | JObj m =>
      match assoc key m with
      | Some x => Ok x
      | None => Ok JNull
      end
  | _ => Err AttributeError
  end.

Fixpoint chars (s : string) : list json :=
  match s with
  | EmptyString => []
  | String c s' => JStr (String c EmptyString) :: chars s'
  end.

(** [for x in v]: a list yields its items, a dict its keys, a string its
    characters; nothing else is iterable. *)
Definition iter (v : json) : res (list json) :=
  match v with
  | JArr l => Ok l
  | JObj m => Ok (map (fun kv => JStr (fst kv)) m)
  | JStr s => Ok (chars s)
  | _ => Err TypeError
  end.

(** [len(v)] *)
Definition len (v : json) : res Z :=
  match v with
  | JArr l => Ok (Z.of_nat (length l))
  | JObj m => Ok (Z.of_nat (length m))
  | JStr s => Ok (Z.of_nat (String.length s))
  | _ => Err TypeError
  end.

(** [v[0]] *)
Definition subscript0 (v : json) : res json :=
  match v with
  | JArr (x :: _) => Ok x
  | JArr [] => Err IndexError
  | JStr (String c _) => Ok (JStr (String c EmptyString))
  | JStr EmptyString => Err IndexError
  | JObj _ => Err (KeyError (JInt 0))
  | _ => Err TypeError
  end.

(** [hash(v)] succeeds: lists and dicts are unhashable. *)
Definition hashable (v : json) : bool :=
  match v with
  | JArr _ | JObj _ => false
  | _ => true
  end.

(* ===================================================================== *)
(** ** Dates and the output record *)
(* ===================================================================== *)

Record date : Type := mkdate { year : Z; month : Z; day : Z }.

(** [Collection(date=..., t=..., icon=...)].  The constructor stores [t]
    as given. *)
Record Collection : Type := mkCollection {
  c_date : date;
  c_type : json;
  c_icon : option string
}.

(* ===================================================================== *)
(** ** [datetime.strptime(s, "%A %d %B %Y")]

    CPython turns the pattern into the regular expression
    [(?P<A>...)\s+(?P<d>3[0-1]|[1-2]\d|0[1-9]|[1-9]| [1-9])\s+(?P<B>...)\s+(?P<Y>\d\d\d\d)]
    (names of the C locale, longest first, letter case ignored), matches it
    at the start of the string, rejects a match that leaves text behind, and
    builds the date from year, month and day.  The weekday is read and then
    ignored.  A regular expression is a backtracking matcher: it maps the
    input to the list of its matches, in the order the engine tries them. *)
(* ===================================================================== *)

Definition matcher (A : Type) : Type := string -> list (A * string).

Definition m_bind {A B} (p : matcher A) (k : A -> matcher B) : matcher B :=
  fun s => flat_map (fun ar => k (fst ar) (snd ar)) (p s).

Definition m_ret {A} (a : A) : matcher A := fun s => [(a, s)].

(** [p1|p2|...] *)
Definition m_alt {A} (ps : list (matcher A)) : matcher A :=
  fun s => flat_map (fun p => p s) ps.

(** A literal word, letter case ignored; [w] is in lower case. *)
Fixpoint m_word (w : string) : matcher unit :=
  fun s =>
    match w with
    | EmptyString => [(tt, s)]
    | String a w' =>
        match s with
        | String c s' =>
            if Ascii.eqb (lower_char c) a then m_word w' s' else []
        | EmptyString => []
        end
    end.

(** The remainders [\s*] can leave, longest match first. *)
Fixpoint spaces_star (s : string) : list string :=
  match s with
  | String c s' => if is_space c then spaces_star s' ++ [s] else [s]
  | EmptyString => [s]
  end.

(** [\s+] *)
Definition m_spaces : matcher unit :=
  fun s =>
    match s with
    | String c s' =>
        if is_space c then map (fun r => (tt, r)) (spaces_star s') else []
    | EmptyString => []
    end.

Definition digit_value (c : ascii) : option Z :=
  let n := nat_of_ascii c in
  if ((48 <=? n) && (n <=? 57))%nat then Some (Z.of_nat (n - 48)) else None.

(** One character of the class [[lo-hi]], as its digit value. *)
Definition m_digit (lo hi : Z) : matcher Z :=
  fun s =>
    match s with
    | String c s' =>
        match digit_value c with
        | Some v => if (lo <=? v) && (v <=? hi) then [(v, s')] else []
        | None => []
        end
    | EmptyString => []
    end.

Definition m_weekday : matcher unit :=
  m_alt (map m_word
    ["wednesday"; "thursday"; "saturday"; "tuesday"; "monday"; "friday";
     "sunday"]).

(** The value is the month number. *)
Definition m_month : matcher Z :=
  m_alt (map (fun wn => m_bind (m_word (fst wn)) (fun _ => m_ret (snd wn)))
    [("september", 9); ("february", 2); ("november", 11); ("december", 12);
     ("january", 1); ("october", 10); ("august", 8); ("march", 3);
     ("april", 4); ("june", 6); ("july", 7); ("may", 5)]).

(** [3[0-1]|[1-2]\d|0[1-9]|[1-9]| [1-9]], as [int] reads the match. *)
Definition m_day : matcher Z :=
  m_alt
    [ m_bind (m_digit 3 3) (fun a => m_bind (m_digit 0 1) (fun b => m_ret (10 * a + b)));
      m_bind (m_digit 1 2) (fun a => m_bind (m_digit 0 9) (fun b => m_ret (10 * a + b)));
      m_bind (m_digit 0 0) (fun _ => m_digit 1 9);
      m_digit 1 9;
      m_bind (m_word " ") (fun _ => m_digit 1 9) ].

(** [\d\d\d\d] *)
Definition m_year : matcher Z :=
  m_bind (m_digit 0 9) (fun a =>
  m_bind (m_digit 0 9) (fun b =>
  m_bind (m_digit 0 9) (fun c =>
  m_bind (m_digit 0 9) (fun d =>
  m_ret (1000 * a + 100 * b + 10 * c + d))))).

Definition format_regex : matcher (Z * Z * Z) :=
  m_bind m_weekday (fun _ =>
  m_bind m_spaces (fun _ =>
  m_bind m_day (fun d =>
  m_bind m_spaces (fun _ =>
  m_bind m_month (fun m =>
  m_bind m_spaces (fun _ =>
  m_bind m_year (fun y =>
  m_ret (y, m, d)))))))).

Definition is_leap (y : Z) : bool :=
  (y mod 4 =? 0) && (negb (y mod 100 =? 0) || (y mod 400 =? 0)).

Definition days_in_month (y m : Z) : Z :=
  if m =? 2 then (if is_leap y then 29 else 28)
  else if (m =? 4) || (m =? 6) || (m =? 9) || (m =? 11) then 30
  else 31.

(** [datetime.date(y, m, d)] for a month in 1..12. *)
Definition make_date (y m d : Z) : res date :=
  if negb ((1 <=? y) && (y <=? 9999)) then
    Err (ValueError (year_is_out_of_range y))
  else if negb ((1 <=? d) && (d <=? days_in_month y m)) then
    Err (ValueError day_is_out_of_range_for_month)
  else Ok (mkdate y m d).

(** [datetime.strptime(data_string, "%A %d %B %Y").date()] on a string. *)
Definition strptime_str (data_string : string) : res date :=
  match format_regex data_string with
  | [] => Err (ValueError (time_data_does_not_match data_string))
  | ((y, m, d), rest) :: _ =>
      if String.eqb rest "" then make_date y m d
      else Err (ValueError (unconverted_data_remains rest))
  end.

(** The same on any value: the argument must be a [str]. *)
Definition strptime (v : json) : res date :=
  match v with
  | JStr s => strptime_str s
  | _ => Err TypeError
  end.

(* ===================================================================== *)
(** ** source/lbbd_gov_uk.py *)
(* ===================================================================== *)

Module lbbd_gov_uk.

(** One value of [COLLECTION_MAP], or the default built at lookup. *)
Record collection_type : Type := mkType {
  waste_type : json;
  icon : option string
}.

Definition COLLECTION_MAP : gmap string collection_type :=
  {[ "Grey-Household" := mkType (JStr "General waste") (Some "mdi:trash-can");
     "Brown-Recycling" := mkType (JStr "Recycling") (Some "mdi:recycle");
     "Green-Garden" := mkType (JStr "Garden waste") (Some "mdi:grass") ]}.

(** [COLLECTION_MAP.get(bin_type, {"waste_type": bin_type, "icon": None})]:
    the key is hashed; only a string can be a key of the table. *)
Definition COLLECTION_MAP_get (bin_type : json) : res collection_type :=
  if negb (hashable bin_type) then Err TypeError
  else
    match bin_type with
    | JStr k => Ok (default (mkType bin_type None) (COLLECTION_MAP !! k))
    | _ => Ok (mkType bin_type None)
    end.

(** [a + b] where [a] is a list. *)
Definition list_add (a : list json) (b : json) : res (list json) :=
  match b with
  | JArr l => Ok (a ++ l)
  | _ => Err TypeError
  end.

(** The sequence the inner loop runs over:
    [([result["nextcollection"]] if result["nextcollection"] else [])
     + result["futurecollections"]] *)
Definition collection_dates (result : json) : res (list json) :=
  (nextcollection <- subscript result "nextcollection" ;;
   futurecollections <- subscript result "futurecollections" ;;
   list_add (if truthy nextcollection then [nextcollection] else [])
            futurecollections)%res.

(** The body of the outer loop: the entries one [result] appends. *)
Definition result_entries (result : json) : res (list Collection) :=
  (bin_type <- subscript result "bin_type" ;;
   collection_type <- COLLECTION_MAP_get bin_type ;;
   dates <- collection_dates result ;;
   res_map
     (fun collection_date =>
        d <- strptime collection_date ;;
        Ok (mkCollection d (waste_type collection_type)
              (icon collection_type)))
     dates)%res.

(** What [requests.get(...)] followed by [r.json()] gives. *)
Inductive reply : Type :=
| network_failure (e : string)
| not_json
| body (rubbish_data : json).

Definition fetch (upstream : reply) : res (list Collection) :=
  match upstream with
  | network_failure e => Err (RequestException e)
  | not_json => Err JSONDecodeError
  | body rubbish_data =>
      (results <- subscript rubbish_data "results" ;;
       results <- iter results ;;
       entries <- res_map result_entries results ;;
       Ok (concat entries))%res
  end.

End lbbd_gov_uk.

(* ===================================================================== *)
(** ** source/woollahra_nsw_gov_au.py *)
(* ===================================================================== *)

Module woollahra_nsw_gov_au.

(** [API_URLS["address_search"].format(x)] and
    [API_URLS["collection"].format(x)], for [x] already a string. *)
Definition address_search_url (x : string) : string :=
  "https://www.woollahra.nsw.gov.au/api/v1/myarea/search?keywords=" +:+ x.

Definition collection_url (x : string) : string :=
  "https://www.woollahra.nsw.gov.au/ocapi/Public/myarea/wasteservices?geolocationid="
  +:+ x +:+
  "&ocsvclang=en-AU&pageLink=/$b9015858-988c-48a4-9473-7c193df083e4$/Services/Rubbish-and-recycling/Find-your-rubbish-and-scheduled-clean-up-service-dates".

Definition main_page_url : string :=
  "https://www.woollahra.nsw.gov.au/Services/Rubbish-and-recycling/Find-your-rubbish-and-scheduled-clean-up-service-dates".

Definition CLEANUP_ICON : string := "mdi:delete-sweep".

Definition ICON_MAP : gmap string string :=
  {[ "General Waste" := "mdi:trash-can";
     "Green Waste" := "mdi:leaf";
     "Recycling" := "mdi:recycle";
     "Spring Clean-Up" := CLEANUP_ICON;
     "Summer Clean-Up" := CLEANUP_ICON;
     "Winter Clean-Up" := CLEANUP_ICON ]}.

(** *** The network

    The session, its cookies, the header dictionaries and the timeout are
    handed to the HTTP library and decide nothing in this module: what the
    upstream answers is a function of the number of the request and of its
    URL. *)

Record response : Type := mkResponse { status_code : Z; text : string }.

(** [session.get] returns a response or raises a
    [requests.RequestException], here with its [str(e)]. *)
Inductive outcome : Type :=
| responded (r : response)
| failed (e : string).

Inductive event : Type :=
| GET (url : string)
| sleep (seconds : Z).

Record world : Type := mkWorld { requests : nat; log : list event }.

(** *** A parsed HTML fragment, as bs4 presents it *)

#[warning="-register-all"]
Inductive node : Type :=
| NavigableString (s : string)
| Tag (name : string) (class : list string) (contents : list node).

(** All nodes below [n], in document order. *)
Fixpoint descendants (n : node) : list node :=
  match n with
  | NavigableString _ => []
  | Tag _ _ contents => flat_map (fun c => c :: descendants c) contents
  end.

(** [n.text]: the strings below [n], joined. *)
Fixpoint node_text (n : node) : string :=
  match n with
  | NavigableString s => s
  | Tag _ _ contents =>
      fold_right String.append "" (map node_text contents)
  end.

(** Does [n] match [find(name, attrs={"class": cls})]?  With no class
    asked for, the name decides. *)
Definition matches (name : string) (cls : option string) (n : node) : bool :=
  match n with
  | NavigableString _ => false
  | Tag name' class' _ =>
      String.eqb name name'
      && match cls with
         | None => true
         | Some c => existsb (String.eqb c) class'
         end
  end.

Definition find_all (name : string) (cls : option string) (n : node)
  : list node :=
  List.filter (matches name cls) (descendants n).

Definition find (name : string) (cls : option string) (n : node)
  : option node :=
  head (find_all name cls n).

(** *** What the module imports and does not define *)

(** What a call of the date parser comes to: it returns a date, it raises
    [ParserError] or [OverflowError], or it raises an exception of another
    class, given by its name. *)
Inductive parse_result : Type :=
| parse_date (d : date)
| parse_error
| parse_raises (exception : string).

Class Externals : Type := {
  (** the outcome of the [n]-th request of this run, sent to [url] *)
  upstream : nat -> string -> outcome;
  (** [requests.utils.requote_uri] *)
  requote_uri : string -> string;
  (** [json.loads]; [None] when it raises [json.JSONDecodeError] *)
  json_loads : string -> option json;
  (** [repr] of a list or a dict *)
  repr : json -> string;
  (** [BeautifulSoup(markup, "html.parser")]: the root of the tree;
      [None] when the constructor raises *)
  BeautifulSoup : json -> option node;
  (** the date of [datetime.now()] when the date parser is called for the
      block at position [k] of the loop, in a run that has made [n]
      requests *)
  now : nat -> nat -> date;
  (** [dateutil.parser.parse(s, dayfirst=True, fuzzy=True).date()], which
      takes the fields the text lacks from the date of [datetime.now()],
      here [today] *)
  dateutil_parse : date -> string -> parse_result
}.

(** *** Effects *)

Definition M (A : Type) : Type := world -> world * res A.

Definition ret {A} (a : A) : M A := fun w => (w, Ok a).

Definition raise {A} (e : exn) : M A := fun w => (w, Err e).

Definition bind {A B} (m : M A) (k : A -> M B) : M B :=
  fun w =>
    match m w with
    | (w', Ok a) => k a w'
    | (w', Err e) => (w', Err e)
    end.

(** [try: m  except: handler]; the handler re-raises what it does not
    catch. *)
Definition try_except {A} (m : M A) (handler : exn -> M A) : M A :=
  fun w =>
    match m w with
    | (w', Ok a) => (w', Ok a)
    | (w', Err e) => handler e w'
    end.

Definition lift {A} (r : res A) : M A := fun w => (w, r).

Declare Scope M_scope.
Delimit Scope M_scope with M.
Notation "x <- m ;; k" := (bind m (fun x => k))
  (at level 100, m at next level, right associativity) : M_scope.

Definition time_sleep (seconds : Z) : M unit :=
  fun w => (mkWorld (requests w) (log w ++ [sleep seconds]), Ok tt).

(** [range(n)] *)
Definition range (n : Z) : list Z := map Z.of_nat (seq 0 (Z.to_nat n)).

(** How one pass through a loop body ends. *)
Inductive flow (A : Type) : Type :=
| returned (a : A)
| continued.
Arguments returned {A} a.
Arguments continued {A}.

Record Source : Type := mkSource { address : string }.

Definition __init__ (address : string) : Source := mkSource (strip address).

Section Code.
Context `{Externals}.

(** [session.get(url, ...)].  The headers and the timeout are passed on
    and decide nothing here. *)
Definition session_get (url : string) : M response :=
  fun w =>
    let w' := mkWorld (S (requests w)) (log w ++ [GET url]) in
    match upstream (requests w) url with
    | responded r => (w', Ok r)
    | failed e => (w', Err (RequestException e))
    end.

Definition failed_message (status attempt : Z) : string :=
  "Failed to fetch: " +:+ str_int status
  +:+ " (attempt " +:+ str_int attempt +:+ ")".

(** The [for attempt in range(max_retries)] loop, over the attempts
    still to make. *)
Fixpoint attempt_loop (url : string) (max_retries : Z) (attempts : list Z)
  : M response :=
  match attempts with
  | [] => raise (RequestException "Max retries exceeded while fetching URL")
  | attempt :: attempts' =>
      (f <- try_except
              (r <- session_get url ;;
               if status_code r =? 200 then ret (returned r)
               else if (status_code r =? 403) && (attempt <? max_retries - 1)
               then (_ <- time_sleep (2 ^ attempt) ;; ret continued)
               else raise (Exception
                      (failed_message (status_code r) (attempt + 1))))
              (fun e =>
                 match e with
                 | RequestException msg =>
                     if attempt =? max_retries - 1
                     then raise (Exception ("Network error: " +:+ msg))
                     else (_ <- time_sleep (2 ^ attempt) ;; ret continued)
                 | _ => raise e
                 end) ;;
       match f with
       | returned r => ret r
       | continued => attempt_loop url max_retries attempts'
       end)%M
  end.

Definition _make_request_with_retry (url : string) (max_retries : Z)
  : M response :=
  attempt_loop url max_retries (range max_retries).

(** [_parse_date(date_text)], called when the clock shows [today]: the
    [except] clause turns [ParserError] and [OverflowError] into [None] and
    lets every other exception pass. *)
Definition _parse_date (today : date) (date_text : string)
  : res (option date) :=
  match dateutil_parse today date_text with
  | parse_date d => Ok (Some d)
  | parse_error => Ok None
  | parse_raises exception => Err (raised_in_library exception)
  end.

(** [ICON_MAP.get(waste_type, "mdi:trash-can")] *)
Definition ICON_MAP_get (waste_type : string) : string :=
  default "mdi:trash-can" (ICON_MAP !! waste_type).

Definition normalize (waste_type : string) : string :=
  if contains "spring" (lower waste_type) && contains "clean" (lower waste_type)
  then "Spring Clean-Up"
  else if contains "summer" (lower waste_type) && contains "clean" (lower waste_type)
  then "Summer Clean-Up"
  else if contains "winter" (lower waste_type) && contains "clean" (lower waste_type)
  then "Winter Clean-Up"
  else waste_type.

(** The body of [for item in services] for the block at position [k], in
    a run that has made [n] requests: [entries] after the pass, or the
    exception that leaves [_parse_date]. *)
Definition visit (n k : nat) (entries : list Collection) (item : node)
  : res (list Collection) :=
  match find "h3" None item with
  | None => Ok entries
  | Some waste_type_element =>
      let waste_type := strip (node_text waste_type_element) in
      let waste_type := normalize waste_type in
      match find "div" (Some "next-service") item with
      | None => Ok entries
      | Some date_element =>
          let date_text := strip (node_text date_element) in
          (date <- _parse_date (now n k) date_text ;;
           match date with
           | Some date =>
               Ok (entries ++ [mkCollection date (JStr waste_type)
                                 (Some (ICON_MAP_get waste_type))])
           | None => Ok entries
           end)%res
      end
  end.

(** [for item in services: ...], from position [k] on. *)
Fixpoint loop (n k : nat) (services : list node) (entries : list Collection)
  : res (list Collection) :=
  match services with
  | [] => Ok entries
  | item :: services' =>
      (entries' <- visit n k entries item ;;
       loop n (S k) services' entries')%res
  end.

(** The loop as a step of [fetch]: it makes no request and reads the
    clock. *)
Definition for_services (services : list node) : M (list Collection) :=
  fun w => (w, loop (requests w) 0 services []).

(** [str.format] of one value into a [{}] field. *)
Definition format_value (v : json) : string :=
  match v with
  | JNull => "None"
  | JBool true => "True"
  | JBool false => "False"
  | JInt n => str_int n
  | JStr s => s
  | _ => repr v
  end.

(** [json.loads(r.text)] with the handler of its [JSONDecodeError]. *)
Definition loads_or (r : response) (denied invalid : string) : M json :=
  match json_loads (text r) with
  | Some data => ret data
  | None =>
      if contains "Access Denied" (text r)
      then raise (Exception denied)
      else raise (Exception invalid)
  end.

(** The first [try] block of [fetch]: visit the main page, ignore a
    network failure. *)
Definition visit_main_page : M unit :=
  try_except
    (main_page_response <- session_get main_page_url ;;
     if negb ((status_code main_page_response =? 200)
              || (status_code main_page_response =? 403))
     then time_sleep 2
     else ret tt)%M
    (fun e =>
       match e with
       | RequestException _ => ret tt
       | _ => raise e
       end).

(** The messages of the two status checks and of the address check. *)
Definition search_status_message (status : Z) : string :=
  "Unable to access Woollahra API (status: " +:+ str_int status
  +:+ "). This may be due to bot protection. Please try again later or contact support.".

Definition collection_status_message (status : Z) : string :=
  "Unable to access Woollahra waste services API (status: "
  +:+ str_int status +:+ ")".

Definition location_message (address : string) : string :=
  "Unable to find location ID for " +:+ address
  +:+ ". Please check your address details are correct.".

Definition fetch (self : Source) : M (list Collection) :=
  (let location_id := JNull in
   let address := address self in
   _ <- visit_main_page ;;
   let q := requote_uri (address_search_url address) in
   r <- _make_request_with_retry q 3 ;;
   if negb (status_code r =? 200) then
     raise (Exception (search_status_message (status_code r)))
   else
   data <- loads_or r
     "Access denied by Woollahra website. This may be due to bot protection measures. Please try again later."
     "Invalid JSON response from address search API" ;;
   items <- lift (get data "Items") ;;
   found <- (if truthy items
             then (items <- lift (subscript data "Items") ;;
                   n <- lift (len items) ;;
                   ret (0 <? n))
             else ret false) ;;
   location_id <- (if found : bool
                   then (items <- lift (subscript data "Items") ;;
                         first <- lift (subscript0 items) ;;
                         lift (subscript first "Id"))
                   else ret location_id) ;;
   if negb (truthy location_id) then
     raise (ValueError (message (location_message address)))
   else
   _ <- time_sleep 1 ;;
   let q := requote_uri (collection_url (format_value location_id)) in
   r <- _make_request_with_retry q 3 ;;
   if negb (status_code r =? 200) then
     raise (Exception (collection_status_message (status_code r)))
   else
   data <- loads_or r
     "Access denied by Woollahra website during waste services fetch."
     "Invalid JSON response from waste services API" ;;
   success <- lift (get data "success") ;;
   invalid <- (if negb (truthy success) then ret true
               else (content <- lift (get data "responseContent") ;;
                     ret (negb (truthy content)))) ;;
   if invalid : bool then
     raise (RuntimeError "Invalid response from waste services API")
   else
   response_content <- lift (subscript data "responseContent") ;;
   soup <- match BeautifulSoup response_content with
           | Some soup => ret soup
           | None => raise bs4_raised
           end ;;
   let services := find_all "div" (Some "waste-services-result") soup in
   for_services services)%M.

End Code.

End woollahra_nsw_gov_au.

(* ===================================================================== *)
(** ** The description's reading of the Barking & Dagenham output *)
(* ===================================================================== *)

(** The description's words for one entry of [results]: the entry has its
    three fields, its dates are [nextcollection] (when present) followed by
    [futurecollections], and there is one [Collection] per date, in that
    order, typed by the classification of [bin_type]. *)
Definition spec_entry (result : json) (cs : list Collection) : Prop :=
  exists bin_type collection_type nextcollection futurecollections,
    subscript result "bin_type" = Ok bin_type /\
    lbbd_gov_uk.COLLECTION_MAP_get bin_type = Ok collection_type /\
    subscript result "nextcollection" = Ok nextcollection /\
    subscript result "futurecollections" = Ok (JArr futurecollections) /\
    Forall2
      (fun collection_date c =>
         strptime collection_date = Ok (c_date c) /\
         c_type c = lbbd_gov_uk.waste_type collection_type /\
         c_icon c = lbbd_gov_uk.icon collection_type)
      ((if truthy nextcollection then [nextcollection] else [])
       ++ futurecollections)
      cs.

(* ===================================================================== *)
(** ** The description's reading of the Woollahra retry helper and of an
       unresolved address *)
(* ===================================================================== *)

(** An outcome after which the helper tries again while attempts remain: a
    response with status 403, or a network failure. *)
Definition retryable (o : woollahra_nsw_gov_au.outcome) : bool :=
  match o with
  | woollahra_nsw_gov_au.responded r =>
      woollahra_nsw_gov_au.status_code r =? 403
  | woollahra_nsw_gov_au.failed _ => true
  end.

(** What [k] attempts that were retried leave in the log, for attempts
    numbered from [a]: a request and a sleep of [2^attempt] seconds each. *)
Definition backoff_log (url : string) (a k : nat)
  : list woollahra_nsw_gov_au.event :=
  flat_map
    (fun i => [woollahra_nsw_gov_au.GET url;
               woollahra_nsw_gov_au.sleep (2 ^ Z.of_nat i)])
    (seq a k).

(** The members of a search reply give no location id: there is no [Items],
    or [Items] is empty (or otherwise falsy), or the first item's [Id] is
    falsy. *)
Inductive unresolved (members : list (string * json)) : Prop :=
| items_missing :
    assoc "Items" members = None -> unresolved members
| items_empty (items : json) :
    assoc "Items" members = Some items -> truthy items = false ->
    unresolved members
| id_falsy (first : list (string * json)) (others : list json) (id : json) :
    assoc "Items" members = Some (JArr (JObj first :: others)) ->
    assoc "Id" first = Some id -> truthy id = false ->
    unresolved members.

(** A run that did not end in an [Exception] whose message starts like the
    messages of the two status checks of [fetch]. *)
Definition no_status_message {A : Type}
           (x : woollahra_nsw_gov_au.world * res A) : Prop :=
  forall w' msg,
    x = (w', Err (Exception msg)) ->
    String.prefix "Unable to access" msg = false.

(** The season words of the normalisation and their canonical labels. *)
Definition seasons : list (string * string) :=
  [("spring", "Spring Clean-Up"); ("summer", "Summer Clean-Up");
   ("winter", "Winter Clean-Up")].

(* ===================================================================== *)
(** ** Notions used by the further properties *)
(* ===================================================================== *)

(** A date of the calendar, as [datetime.date] holds it. *)
Definition valid_date (d : date) : Prop :=
  1 <= year d <= 9999 /\ 1 <= month d <= 12
  /\ 1 <= day d <= days_in_month (year d) (month d).

(** The weekday names, as they are written in English. *)
Definition weekday_names : list string :=
  ["Monday"; "Tuesday"; "Wednesday"; "Thursday"; "Friday"; "Saturday";
   "Sunday"].

(** The seconds slept and the requests made that a piece of log records. *)
Fixpoint slept (l : list woollahra_nsw_gov_au.event) : Z :=
  match l with
  | [] => 0
  | woollahra_nsw_gov_au.sleep s :: l' => s + slept l'
  | woollahra_nsw_gov_au.GET _ :: l' => slept l'
  end.

Fixpoint gets (l : list woollahra_nsw_gov_au.event) : nat :=
  match l with
  | [] => 0
  | woollahra_nsw_gov_au.GET _ :: l' => S (gets l')
  | woollahra_nsw_gov_au.sleep _ :: l' => gets l'
  end.

(** A computation that only adds to the log, counts the requests it logs,
    and makes at most [n] requests and sleeps at most [s] seconds. *)
Definition within (n : nat) (s : Z) {A : Type}
           (m : woollahra_nsw_gov_au.M A) : Prop :=
  forall w w' x,
    m w = (w', x) ->
    exists added,
      woollahra_nsw_gov_au.log w' = woollahra_nsw_gov_au.log w ++ added /\
      woollahra_nsw_gov_au.requests w'
      = (woollahra_nsw_gov_au.requests w + gets added)%nat /\
      (gets added <= n)%nat /\
      0 <= slept added <= s.

(** The first half of a run of the Woollahra [fetch] went through: the
    address search, started in [w] and answered in [w1], gave the location
    id [id]. *)
Definition search_resolves `{woollahra_nsw_gov_au.Externals}
           (self : woollahra_nsw_gov_au.Source)
           (w w1 : woollahra_nsw_gov_au.world) (id : json) : Prop :=
  exists w0 r members first others,
    woollahra_nsw_gov_au.visit_main_page w = (w0, Ok tt) /\
    woollahra_nsw_gov_au._make_request_with_retry
      (woollahra_nsw_gov_au.requote_uri
         (woollahra_nsw_gov_au.address_search_url
            (woollahra_nsw_gov_au.address self))) 3 w0 = (w1, Ok r) /\
    woollahra_nsw_gov_au.json_loads (woollahra_nsw_gov_au.text r)
    = Some (JObj members) /\
    assoc "Items" members = Some (JArr (JObj first :: others)) /\
    assoc "Id" first = Some id /\
    truthy id = true.

(** A computation that leaves the state alone and gives the same result
    in every state. *)
Definition constant {A : Type} (m : woollahra_nsw_gov_au.M A) : Prop :=
  exists r, forall w, m w = (w, r).

(** A string of whitespace only. *)
Fixpoint all_space (s : string) : bool :=
  match s with
  | EmptyString => true
  | String c s' => is_space c && all_space s'
  end.

(** The icons the Woollahra source can attach to a record. *)
Definition woollahra_icons : list string :=
  ["mdi:trash-can"; "mdi:leaf"; "mdi:recycle"; "mdi:delete-sweep"].



(* ===================================================================== *)
(** ** Sample inputs *)
(* ===================================================================== *)

Module samples.

Definition grey_household : json :=
  JObj [("bin_type", JStr "Grey-Household");
        ("nextcollection", JStr "Monday 01 January 2024");
        ("futurecollections", JArr [JStr "Monday 08 January 2024"])].

Definition grey_household_body : json :=
  JObj [("results", JArr [grey_household])].

Definition general_waste (d : Z) : Collection :=
  mkCollection (mkdate 2024 1 d) (JStr "General waste") (Some "mdi:trash-can").

(** An entry of a type the table does not know, without a next date. *)
Definition purple_bin : json :=
  JObj [("bin_type", JStr "Purple-Glass");
        ("nextcollection", JStr "");
        ("futurecollections",
         JArr [JStr "Friday 05 January 2024"; JStr "Friday 12 January 2024"])].

(** An entry whose second date is not in the format. *)
Definition bad_date : json :=
  JObj [("bin_type", JStr "Green-Garden");
        ("nextcollection", JStr "Tuesday 02 January 2024");
        ("futurecollections", JArr [JStr "2024-01-09"])].


(** *** Woollahra *)

Import woollahra_nsw_gov_au.

Definition quoted (s : string) : string :=
  String (ascii_of_nat 34) s +:+ String (ascii_of_nat 34) "".

(** A search reply without items, and one with an item. *)
Definition no_items_text : string := "{" +:+ quoted "Items" +:+ ": []}".

Definition one_item_text : string :=
  "{" +:+ quoted "Items" +:+ ": [{" +:+ quoted "Id" +:+ ": 42}]}".

(** The fragment of a schedule reply, and the reply around it. *)
Definition schedule_html : string :=
  "<div class=waste-services-result><h3>Spring Clean Up Service</h3><div class=next-service> 15/03/2025 </div></div>"
  +:+ "<div class=waste-services-result><h3>Recycling</h3><div class=next-service>to be announced</div></div>"
  +:+ "<div class=waste-services-result><h3>Glass</h3><div class=next-service>01/04/2025</div></div>".

Definition schedule_text : string :=
  "{" +:+ quoted "success" +:+ ": true, " +:+ quoted "responseContent"
  +:+ ": " +:+ quoted schedule_html +:+ "}".

(** A text of too many digits for the parser's arithmetic, and a schedule
    reply whose second block has it as its next-service text. *)
Definition overflowing_text : string := "11111111111111111111111111111h".

Definition overflowing_html : string :=
  "<div class=waste-services-result><h3>Spring Clean Up Service</h3><div class=next-service> 15/03/2025 </div></div>"
  +:+ "<div class=waste-services-result><h3>Garbage</h3><div class=next-service>"
  +:+ overflowing_text +:+ "</div></div>"
  +:+ "<div class=waste-services-result><h3>Glass</h3><div class=next-service>01/04/2025</div></div>".

Definition overflowing_reply : string :=
  "{" +:+ quoted "success" +:+ ": true, " +:+ quoted "responseContent"
  +:+ ": " +:+ quoted overflowing_html +:+ "}".

(** A stand-in for [json.loads] that knows the replies above. *)
Definition loads (s : string) : option json :=
  if String.eqb s no_items_text then Some (JObj [("Items", JArr [])])
  else if String.eqb s one_item_text
  then Some (JObj [("Items", JArr [JObj [("Id", JInt 42)]])])
  else if String.eqb s schedule_text
  then Some (JObj [("success", JBool true);
                   ("responseContent", JStr schedule_html)])
  else if String.eqb s overflowing_reply
  then Some (JObj [("success", JBool true);
                   ("responseContent", JStr overflowing_html)])
  else None.

(** A stand-in for the date parser: it reads [DD/MM/YYYY], raises
    [decimal.InvalidOperation] on the text above, as dateutil does, and
    [ParserError] on everything else. *)
Definition day_month_year (today : date) (s : string) : parse_result :=
  let two := m_bind (m_digit 0 9) (fun a =>
             m_bind (m_digit 0 9) (fun b => m_ret (10 * a + b))) in
  if String.eqb s overflowing_text
  then parse_raises "decimal.InvalidOperation"
  else
    match m_bind two (fun d =>
          m_bind (m_word "/") (fun _ =>
          m_bind two (fun m =>
          m_bind (m_word "/") (fun _ =>
          m_bind m_year (fun y => m_ret (y, m, d)))))) s with
    | ((y, m, d), EmptyString) :: _ =>
        if (1 <=? m) && (m <=? 12)
        then match make_date y m d with
             | Ok x => parse_date x
             | Err _ => parse_error
             end
        else parse_error
    | _ => parse_error
    end.

(** A result block for the spring clean-up, one whose date is not a
    date, and one of a type the icon table does not know. *)
Definition spring_block : node :=
  Tag "div" ["waste-services-result"]
    [Tag "h3" [] [NavigableString "Spring Clean Up Service"];
     Tag "div" ["next-service"] [NavigableString " 15/03/2025 "]].

Definition undated_block : node :=
  Tag "div" ["waste-services-result"]
    [Tag "h3" [] [NavigableString "Recycling"];
     Tag "div" ["next-service"] [NavigableString "to be announced"]].

Definition glass_block : node :=
  Tag "div" ["waste-services-result"]
    [Tag "h3" [] [NavigableString "Glass"];
     Tag "div" ["next-service"] [NavigableString "01/04/2025"]].

Definition schedule_soup : node :=
  Tag "[document]" [] [spring_block; undated_block; glass_block].

(** The block with the text of too many digits, and its fragment. *)
Definition overflowing_block : node :=
  Tag "div" ["waste-services-result"]
    [Tag "h3" [] [NavigableString "Garbage"];
     Tag "div" ["next-service"] [NavigableString overflowing_text]].

Definition overflowing_soup : node :=
  Tag "[document]" [] [spring_block; overflowing_block; glass_block].

(** A stand-in for the HTML parser that knows the two fragments. *)
Definition soup_of (markup : json) : option node :=
  match markup with
  | JStr s =>
      if String.eqb s schedule_html then Some schedule_soup
      else if String.eqb s overflowing_html then Some overflowing_soup
      else None
  | _ => None
  end.

(** The libraries, around a given upstream. *)
Definition externals (up : nat -> string -> outcome) : Externals :=
  {| upstream := up;
     requote_uri := fun u => u;
     json_loads := loads;
     repr := fun _ => "";
     BeautifulSoup := soup_of;
     now := fun n k => mkdate 2026 11 4;
     dateutil_parse := day_month_year |}.

(** Upstreams: the status of the [n]-th request, whatever its URL. *)
Definition statuses (codes : list Z) (body : string) (n : nat) (url : string)
  : outcome :=
  responded (mkResponse (nth n codes 200) body).

Definition forbidden_twice : nat -> string -> outcome :=
  statuses [403; 403; 200] "".

Definition forbidden_thrice : nat -> string -> outcome :=
  statuses [403; 403; 403] "".

Definition server_error : nat -> string -> outcome :=
  statuses [403; 500] "".

Definition finds_nothing : nat -> string -> outcome :=
  statuses [] no_items_text.

(** An upstream that answers every request: the search with one item,
    the schedule with the reply above. *)
Definition answers (n : nat) (url : string) : outcome :=
  responded (mkResponse 200
    (if String.prefix "https://www.woollahra.nsw.gov.au/api/" url
     then one_item_text
     else if String.prefix "https://www.woollahra.nsw.gov.au/ocapi/" url
     then schedule_text
     else "")).

(** The same, with the schedule whose second block has the text of too
    many digits. *)
Definition overflows (n : nat) (url : string) : outcome :=
  responded (mkResponse 200
    (if String.prefix "https://www.woollahra.nsw.gov.au/api/" url
     then one_item_text
     else if String.prefix "https://www.woollahra.nsw.gov.au/ocapi/" url
     then overflowing_reply
     else "")).

Definition start : world := mkWorld 0 [].

Definition paddington : Source :=
  __init__ " 13 Paddington Street PADDINGTON NSW 2021 ".


(** *** Further Barking & Dagenham entries *)

(** An entry without [nextcollection]. *)
Definition no_next : json :=
  JObj [("bin_type", JStr "Brown-Recycling");
        ("futurecollections", JArr [])].

Definition brown_recycling : json :=
  JObj [("bin_type", JStr "Brown-Recycling");
        ("nextcollection", JStr "Wednesday 03 January 2024");
        ("futurecollections", JArr [JStr "Wednesday 17 January 2024"])].


(** *** Further upstreams *)

(** No request gets through. *)
Definition unreachable (n : nat) (url : string) : outcome :=
  failed "timed out".


(** A site that blocks the client: every reply is an error page. *)
Definition blocks (n : nat) (url : string) : outcome :=
  responded (mkResponse 200 "<html>Access Denied</html>").

(** A site whose schedule endpoint is down. *)
Definition schedule_down (n : nat) (url : string) : outcome :=
  if String.prefix "https://www.woollahra.nsw.gov.au/ocapi/" url
  then responded (mkResponse 500 "")
  else answers n url.

(** The states of a run against [answers]: after the main page, after the
    search, and after the delay that follows it. *)
Definition after_main_page : world := mkWorld 1 [GET main_page_url].

Definition after_search : world :=
  mkWorld 2
    [GET main_page_url;
     GET (address_search_url "13 Paddington Street PADDINGTON NSW 2021")].

Definition after_delay : world :=
  mkWorld 2
    [GET main_page_url;
     GET (address_search_url "13 Paddington Street PADDINGTON NSW 2021");
     sleep 1].


(** A result block without a heading, and one without a date element. *)
Definition headless_block : node :=
  Tag "div" ["waste-services-result"]
    [Tag "div" ["next-service"] [NavigableString "01/04/2025"]].

Definition dateless_block : node :=
  Tag "div" ["waste-services-result"]
    [Tag "h3" [] [NavigableString "Green Waste"]].

End samples.

(* ===================================================================== *)
(** ** Lemmas on the result monad *)
(* ===================================================================== *)

Section res_map_facts.
Context {A B : Type} (f : A -> res B).

Lemma res_map_Ok_iff (xs : list A) (ys : list B) :
  res_map f xs = Ok ys <-> Forall2 (fun x y => f x = Ok y) xs ys.
Proof.
  revert ys; induction xs as [|x xs IH]; intros ys; simpl.
  - split.
    + intros [= <-]. constructor.
    + intros Hf. inversion Hf. reflexivity.
  - destruct (f x) as [y|e] eqn:Hx; simpl.
    + destruct (res_map f xs) as [ys'|e] eqn:Hxs; simpl.
      * split.
        -- intros [= <-]. constructor; [assumption | now apply IH].
        -- intros Hf. inversion Hf as [|? y0 ? ys0 Hy Hys]; subst.
           apply IH in Hys. congruence.
      * split; [discriminate|].
        intros Hf. inversion Hf as [|? y0 ? ys0 Hy Hys]; subst.
        apply IH in Hys. discriminate.
    + split; [discriminate|].
      intros Hf. inversion Hf; subst. congruence.
Qed.

(** The first element that raises decides the outcome. *)
Lemma res_map_first_error (pre post : list A) (x : A) (e : exn) :
  Forall (fun a => exists b, f a = Ok b) pre ->
  f x = Err e ->
  res_map f (pre ++ x :: post) = Err e.
Proof.
  intros Hpre Hx. induction Hpre as [|a pre [b Hb] _ IH]; simpl.
  - now rewrite Hx.
  - now rewrite Hb, IH.
Qed.

(** Any element that raises makes the whole loop raise. *)
Lemma res_map_some_error (xs : list A) (x : A) (e : exn) :
  In x xs -> f x = Err e -> exists e', res_map f xs = Err e'.
Proof.
  induction xs as [|a xs IH]; simpl; [tauto|].
  intros [->|Hin] Hx.
  - rewrite Hx. now exists e.
  - destruct (f a); simpl; [|eauto].
    destruct (IH Hin Hx) as [e' ->]. eauto.
Qed.

Lemma res_map_length (xs : list A) (ys : list B) :
  res_map f xs = Ok ys -> length ys = length xs.
Proof.
  rewrite res_map_Ok_iff. intros Hf. symmetry. exact (Forall2_length _ _ _ Hf).
Qed.

End res_map_facts.

(* ===================================================================== *)
(** ** Lemmas on [strptime] *)
(* ===================================================================== *)

Lemma make_date_error (y m d : Z) (e : exn) :
  make_date y m d = Err e -> exists why, e = ValueError why.
Proof.
  unfold make_date. repeat case_match; intros [= <-]; eauto.
Qed.

(** Every failure of [strptime] on a string is a [ValueError]. *)
Lemma strptime_str_error (s : string) (e : exn) :
  strptime_str s = Err e -> exists why, e = ValueError why.
Proof.
  unfold strptime_str.
  destruct (format_regex s) as [|[[[y m] d] rest] ?].
  - intros [= <-]; eauto.
  - destruct (String.eqb rest ""); [apply make_date_error|].
    intros [= <-]; eauto.
Qed.

(* ===================================================================== *)
(** ** Barking & Dagenham: lemmas *)
(* ===================================================================== *)

Section lbbd_facts.
Import lbbd_gov_uk.

(** What one date of the inner loop appends. *)
Lemma entry_of_date_Ok (ct : collection_type) (d : json) (c : Collection) :
  (x <- strptime d ;; Ok (mkCollection x (waste_type ct) (icon ct)))%res = Ok c
  <-> strptime d = Ok (c_date c) /\ c_type c = waste_type ct
      /\ c_icon c = icon ct.
Proof.
  destruct (strptime d) as [x|e]; simpl; split.
  - intros [= <-]. auto.
  - destruct c as [cd ctp ci]; simpl. intros ([= ->] & -> & ->). reflexivity.
  - discriminate.
  - intros [? _]. discriminate.
Qed.

Lemma result_entries_Ok_iff (result : json) (cs : list Collection) :
  result_entries result = Ok cs <-> spec_entry result cs.
Proof.
  unfold result_entries, collection_dates, spec_entry, list_add. split.
  - destruct (subscript result "bin_type") as [bt|] eqn:Hbt; [simpl|discriminate].
    destruct (COLLECTION_MAP_get bt) as [ct|] eqn:Hct; [simpl|discriminate].
    destruct (subscript result "nextcollection") as [nc|]; [simpl|discriminate].
    destruct (subscript result "futurecollections") as [fc|]; [simpl|discriminate].
    destruct fc as [| | | |fc|]; try discriminate. simpl.
    intros Hmap. exists bt, ct, nc, fc.
    do 4 (split; [first [reflexivity | assumption]|]).
    apply res_map_Ok_iff in Hmap.
    eapply Forall2_impl; [exact Hmap|].
    intros d c Hdc. now apply entry_of_date_Ok.
  - intros (bt & ct & nc & fc & -> & Hct & -> & -> & Hall). simpl.
    rewrite Hct. simpl. apply res_map_Ok_iff.
    eapply Forall2_impl; [exact Hall|].
    intros d c Hdc. now apply entry_of_date_Ok.
Qed.

Lemma fetch_Ok_iff (rubbish_data : json) (results : list json)
      (cs : list Collection) :
  subscript rubbish_data "results" = Ok (JArr results) ->
  fetch (body rubbish_data) = Ok cs
  <-> exists css, Forall2 spec_entry results css /\ cs = concat css.
Proof.
  intros Hres. unfold fetch. rewrite Hres. simpl. split.
  - destruct (res_map result_entries results) as [css|] eqn:Hmap;
      [simpl|discriminate].
    intros [= <-]. exists css. split; [|reflexivity].
    apply res_map_Ok_iff in Hmap.
    eapply Forall2_impl; [exact Hmap|].
    intros r c. apply result_entries_Ok_iff.
  - intros (css & Hall & ->).
    assert (res_map result_entries results = Ok css) as ->; [|reflexivity].
    apply res_map_Ok_iff.
    eapply Forall2_impl; [exact Hall|].
    intros r c. apply result_entries_Ok_iff.
Qed.

(** A date that does not parse fails the entry it belongs to. *)
Lemma result_entries_bad_date (result : json) (dates : list json)
      (s : string) (e : exn) :
  collection_dates result = Ok dates ->
  In (JStr s) dates ->
  strptime_str s = Err e ->
  exists e', result_entries result = Err e'.
Proof.
  intros Hdates Hin Hs. unfold result_entries.
  destruct (subscript result "bin_type") as [bt|]; simpl; [|eauto].
  destruct (COLLECTION_MAP_get bt) as [ct|]; simpl; [|eauto].
  rewrite Hdates. simpl.
  eapply res_map_some_error; [exact Hin|]. simpl. rewrite Hs. reflexivity.
Qed.

(** The first date that does not parse raises its own error. *)
Lemma result_entries_first_bad_date (result bin_type : json)
      (pre post : list json) (s : string) (e : exn) :
  subscript result "bin_type" = Ok bin_type ->
  hashable bin_type = true ->
  collection_dates result = Ok (pre ++ JStr s :: post) ->
  Forall (fun d => exists x, strptime d = Ok x) pre ->
  strptime_str s = Err e ->
  result_entries result = Err e.
Proof.
  intros Hbt Hh Hdates Hpre Hs. unfold result_entries.
  rewrite Hbt. simpl.
  assert (exists ct, COLLECTION_MAP_get bin_type = Ok ct) as [ct ->].
  { unfold COLLECTION_MAP_get. rewrite Hh. simpl.
    destruct bin_type; eauto. }
  simpl. rewrite Hdates. simpl.
  apply res_map_first_error.
  - eapply Forall_impl; [exact Hpre|].
    intros d [x ->]. simpl. eauto.
  - simpl. now rewrite Hs.
Qed.

(** A bin type the table does not know keeps its raw name and gets no
    icon. *)
Lemma result_entries_unknown (result : json) (k : string)
      (cs : list Collection) :
  subscript result "bin_type" = Ok (JStr k) ->
  COLLECTION_MAP !! k = None ->
  result_entries result = Ok cs ->
  Forall (fun c => c_type c = JStr k /\ c_icon c = None) cs.
Proof.
  intros Hbt Hk Hcs. apply result_entries_Ok_iff in Hcs.
  destruct Hcs as (bt & ct & nc & fc & Hbt' & Hct & _ & _ & Hall).
  rewrite Hbt in Hbt'. injection Hbt' as <-.
  unfold COLLECTION_MAP_get in Hct. simpl in Hct. rewrite Hk in Hct.
  injection Hct as <-. simpl in Hall.
  induction Hall as [|d c ds cs' (_ & Ht & Hi) _ IH]; constructor; auto.
Qed.

Lemma collection_dates_falsy (result nextcollection : json)
      (futurecollections : list json) :
  subscript result "nextcollection" = Ok nextcollection ->
  truthy nextcollection = false ->
  subscript result "futurecollections" = Ok (JArr futurecollections) ->
  collection_dates result = Ok futurecollections.
Proof.
  intros Hnc Hf Hfc. unfold collection_dates.
  rewrite Hnc, Hfc. simpl. now rewrite Hf.
Qed.

End lbbd_facts.

(* ===================================================================== *)
(** ** Woollahra: the retry helper *)
(* ===================================================================== *)

Section retry_facts.
Import woollahra_nsw_gov_au.
Context `{Externals}.

(** One pass through the body of the loop. *)
Lemma attempt_loop_step (url : string) (m a : Z) (rest : list Z) (w : world) :
  attempt_loop url m (a :: rest) w =
  let w1 := mkWorld (S (requests w)) (log w ++ [GET url]) in
  let w2 := mkWorld (S (requests w)) (log w ++ [GET url; sleep (2 ^ a)]) in
  match upstream (requests w) url with
  | responded r =>
      if status_code r =? 200 then (w1, Ok r)
      else if (status_code r =? 403) && (a <? m - 1)
      then attempt_loop url m rest w2
      else (w1, Err (Exception (failed_message (status_code r) (a + 1))))
  | failed e =>
      if a =? m - 1 then (w1, Err (Exception ("Network error: " +:+ e)))
      else attempt_loop url m rest w2
  end.
Proof.
  cbn [attempt_loop]. unfold bind, try_except, session_get.
  destruct (upstream (requests w) url) as [r|e].
  - destruct (status_code r =? 200); [reflexivity|].
    destruct ((status_code r =? 403) && (a <? m - 1)); [|reflexivity].
    unfold time_sleep, ret; cbn [requests log]. now rewrite <- app_assoc.
  - destruct (a =? m - 1); [reflexivity|].
    unfold time_sleep, ret; cbn [requests log]. now rewrite <- app_assoc.
Qed.

Lemma attempt_loop_200 (url : string) (m a : Z) (rest : list Z) (w : world)
      (r : response) :
  upstream (requests w) url = responded r ->
  status_code r = 200 ->
  attempt_loop url m (a :: rest) w
  = (mkWorld (S (requests w)) (log w ++ [GET url]), Ok r).
Proof.
  intros Hup Hs. rewrite attempt_loop_step, Hup. cbv zeta. now rewrite Hs.
Qed.

Lemma attempt_loop_retry (url : string) (m a : Z) (rest : list Z) (w : world) :
  retryable (upstream (requests w) url) = true ->
  a < m - 1 ->
  attempt_loop url m (a :: rest) w
  = attempt_loop url m rest
      (mkWorld (S (requests w)) (log w ++ [GET url; sleep (2 ^ a)])).
Proof.
  intros Hr Ha. rewrite attempt_loop_step. cbv zeta.
  destruct (upstream (requests w) url) as [r|e]; simpl in Hr.
  - apply Z.eqb_eq in Hr. rewrite Hr. simpl.
    now apply Z.ltb_lt in Ha as ->.
  - assert ((a =? m - 1) = false) as -> by lia. reflexivity.
Qed.

Lemma attempt_loop_failed (url : string) (m a : Z) (rest : list Z) (w : world)
      (r : response) :
  upstream (requests w) url = responded r ->
  status_code r <> 200 ->
  status_code r <> 403 \/ m - 1 <= a ->
  attempt_loop url m (a :: rest) w
  = (mkWorld (S (requests w)) (log w ++ [GET url]),
     Err (Exception (failed_message (status_code r) (a + 1)))).
Proof.
  intros Hup H200 Hlast. rewrite attempt_loop_step, Hup. cbv zeta.
  assert ((status_code r =? 200) = false) as -> by lia.
  assert (((status_code r =? 403) && (a <? m - 1)) = false) as -> by lia.
  reflexivity.
Qed.

(** Attempts [a .. a+k-1] are retried when each meets a retryable outcome
    and none of them is the last attempt. *)
Lemma attempt_loop_backoff (url : string) (m : Z) (k : nat) :
  forall (a n : nat) (w : world),
    Z.of_nat (a + k) <= m - 1 ->
    (forall i, (i < k)%nat ->
               retryable (upstream (requests w + i)%nat url) = true) ->
    attempt_loop url m (map Z.of_nat (seq a (k + n))) w
    = attempt_loop url m (map Z.of_nat (seq (a + k) n))
        (mkWorld (requests w + k) (log w ++ backoff_log url a k)).
Proof.
  induction k as [|k IH]; intros a n w Hm Hretry.
  - unfold backoff_log. simpl. rewrite !Nat.add_0_r, app_nil_r.
    now destruct w.
  - cbn [Nat.add seq map]. rewrite attempt_loop_retry.
    + rewrite IH.
      * cbn [requests log]. unfold backoff_log. cbn [seq flat_map].
        rewrite <- app_assoc. cbn [app].
        now replace (S a + k)%nat with (a + S k)%nat by lia;
          replace (S (requests w) + k)%nat with (requests w + S k)%nat by lia.
      * lia.
      * intros i Hi. cbn [requests].
        replace (S (requests w) + i)%nat with (requests w + S i)%nat by lia.
        apply Hretry. lia.
    + specialize (Hretry 0%nat). rewrite Nat.add_0_r in Hretry.
      apply Hretry. lia.
    + lia.
Qed.

(** The same for a call of the helper: the first [k] attempts. *)
Lemma helper_backoff (url : string) (m : Z) (k : nat) (w : world) :
  Z.of_nat k < m ->
  (forall i, (i < k)%nat ->
             retryable (upstream (requests w + i)%nat url) = true) ->
  _make_request_with_retry url m w
  = attempt_loop url m (map Z.of_nat (seq k (Z.to_nat m - k)))
      (mkWorld (requests w + k) (log w ++ backoff_log url 0 k)).
Proof.
  intros Hk Hretry. unfold _make_request_with_retry, range.
  replace (Z.to_nat m) with (k + (Z.to_nat m - k))%nat at 1 by lia.
  rewrite attempt_loop_backoff; [reflexivity| lia | assumption].
Qed.

(** The helper hands back only a response with status 200. *)
Lemma attempt_loop_Ok (url : string) (m : Z) (attempts : list Z) :
  forall (w w' : world) (r : response),
    attempt_loop url m attempts w = (w', Ok r) -> status_code r = 200.
Proof.
  induction attempts as [|a rest IH]; intros w w' r.
  - discriminate.
  - rewrite attempt_loop_step. cbv zeta.
    destruct (upstream (requests w) url) as [r0|e].
    + destruct (status_code r0 =? 200) eqn:H200.
      * intros [= _ <-]. lia.
      * destruct ((status_code r0 =? 403) && (a <? m - 1));
          [apply IH | discriminate].
    + destruct (a =? m - 1); [discriminate | apply IH].
Qed.

(** When the helper raises an [Exception], the message is one of its own
    two; neither starts like the messages of [fetch]'s status checks. *)
Lemma attempt_loop_Exception (url : string) (m : Z) (attempts : list Z) :
  forall (w w' : world) (msg : string),
    attempt_loop url m attempts w = (w', Err (Exception msg)) ->
    String.prefix "Unable to access" msg = false.
Proof.
  induction attempts as [|a rest IH]; intros w w' msg.
  - discriminate.
  - rewrite attempt_loop_step. cbv zeta.
    destruct (upstream (requests w) url) as [r0|e].
    + destruct (status_code r0 =? 200); [discriminate|].
      destruct ((status_code r0 =? 403) && (a <? m - 1)); [apply IH|].
      intros [= _ <-]. reflexivity.
    + destruct (a =? m - 1); [|apply IH].
      intros [= _ <-]. reflexivity.
Qed.

End retry_facts.

(* ===================================================================== *)
(** ** Woollahra: the loop over the result blocks *)
(* ===================================================================== *)

Section visit_facts.
Import woollahra_nsw_gov_au.
Context `{Externals}.

Lemma visit_entries (n k : nat) (entries : list Collection) (item : node) :
  visit n k entries item
  = (out <- visit n k [] item ;; Ok (entries ++ out))%res.
Proof.
  unfold visit.
  destruct (find "h3" None item); [|simpl; now rewrite app_nil_r].
  destruct (find "div" (Some "next-service") item);
    [|simpl; now rewrite app_nil_r].
  destruct (_parse_date _ _) as [[d|]|e]; simpl; rewrite ?app_nil_r;
    reflexivity.
Qed.

(** The loop emits, after the entries it starts with, what it emits when
    it starts with none. *)
Lemma loop_entries (n : nat) (services : list node) :
  forall k entries,
    loop n k services entries
    = (out <- loop n k services [] ;; Ok (entries ++ out))%res.
Proof.
  induction services as [|item services IH]; intros k entries; simpl.
  - now rewrite app_nil_r.
  - rewrite visit_entries.
    destruct (visit n k [] item) as [o|e]; simpl; [|reflexivity].
    rewrite (IH (S k) (entries ++ o)), (IH (S k) o).
    destruct (loop n (S k) services []); simpl; [|reflexivity].
    now rewrite app_assoc.
Qed.

Lemma loop_app (n : nat) (services1 services2 : list node) :
  forall k entries,
    loop n k (services1 ++ services2) entries
    = (entries' <- loop n k services1 entries ;;
       loop n (k + length services1) services2 entries')%res.
Proof.
  induction services1 as [|item services1 IH]; intros k entries; simpl.
  - now rewrite Nat.add_0_r.
  - destruct (visit n k entries item); simpl; [|reflexivity].
    rewrite IH. now replace (S k + length services1)%nat
      with (k + S (length services1))%nat by lia.
Qed.


Lemma visit_raises (n k : nat) (entries : list Collection)
      (item heading date_element : node) (exception : string) :
  find "h3" None item = Some heading ->
  find "div" (Some "next-service") item = Some date_element ->
  dateutil_parse (now n k) (strip (node_text date_element))
  = parse_raises exception ->
  visit n k entries item = Err (raised_in_library exception).
Proof.
  intros Hh Hd Hp. unfold visit, _parse_date. now rewrite Hh, Hd, Hp.
Qed.

(** What a block with a heading and a date that parses contributes. *)
Lemma visit_emits (n k : nat) (item heading date_element : node) (d : date) :
  find "h3" None item = Some heading ->
  find "div" (Some "next-service") item = Some date_element ->
  dateutil_parse (now n k) (strip (node_text date_element)) = parse_date d ->
  visit n k [] item
  = Ok [mkCollection d (JStr (normalize (strip (node_text heading))))
          (Some (ICON_MAP_get (normalize (strip (node_text heading)))))].
Proof.
  intros Hh Hd Hp. unfold visit, _parse_date. now rewrite Hh, Hd, Hp.
Qed.

(** Whatever a block contributes carries the normalised heading and the
    icon the table gives it. *)
Lemma visit_inv (n k : nat) (item : node) (out : list Collection)
      (c : Collection) :
  visit n k [] item = Ok out ->
  In c out ->
  exists heading,
    find "h3" None item = Some heading /\
    c_type c = JStr (normalize (strip (node_text heading))) /\
    c_icon c = Some (ICON_MAP_get (normalize (strip (node_text heading)))).
Proof.
  unfold visit.
  destruct (find "h3" None item) as [heading|]; [|intros [= <-] []].
  destruct (find "div" (Some "next-service") item); [|intros [= <-] []].
  destruct (_parse_date _ _) as [[d|]|e]; simpl;
    [|intros [= <-] [] | discriminate].
  intros [= <-] [<-|[]]. exists heading. auto.
Qed.

Lemma visit_at_most_one (n k : nat) (item : node) (out : list Collection) :
  visit n k [] item = Ok out -> (length out <= 1)%nat.
Proof.
  unfold visit.
  destruct (find "h3" None item); [|intros [= <-]; simpl; lia].
  destruct (find "div" (Some "next-service") item);
    [|intros [= <-]; simpl; lia].
  destruct (_parse_date _ _) as [[d|]|e]; simpl;
    [| | discriminate]; intros [= <-]; simpl; lia.
Qed.

(** The only exception that leaves a block is one of the date parser. *)
Lemma visit_error (n k : nat) (entries : list Collection) (item : node)
      (e : exn) :
  visit n k entries item = Err e ->
  exists exception, e = raised_in_library exception.
Proof.
  unfold visit, _parse_date.
  destruct (find "h3" None item); [|discriminate].
  destruct (find "div" (Some "next-service") item); [|discriminate].
  destruct (dateutil_parse _ _) as [d| |exception]; simpl;
    [discriminate | discriminate |].
  intros [= <-]. now exists exception.
Qed.

Lemma loop_error (n : nat) (services : list node) :
  forall k entries e,
    loop n k services entries = Err e ->
    exists exception, e = raised_in_library exception.
Proof.
  induction services as [|item services IH]; intros k entries e; simpl.
  - discriminate.
  - destruct (visit n k entries item) as [o|e'] eqn:Hv; simpl.
    + apply IH.
    + intros [= <-]. now apply visit_error in Hv.
Qed.

(** Every record of the loop comes from one of its blocks. *)
Lemma loop_In (n : nat) (services : list node) :
  forall k out c,
    loop n k services [] = Ok out ->
    In c out ->
    exists item j out',
      In item services /\ visit n j [] item = Ok out' /\ In c out'.
Proof.
  induction services as [|item services IH]; intros k out c; simpl.
  - intros [= <-] [].
  - destruct (visit n k [] item) as [o|] eqn:Hv; simpl; [|discriminate].
    rewrite loop_entries.
    destruct (loop n (S k) services []) as [o2|] eqn:Hl; simpl;
      [|discriminate].
    intros [= <-] Hin. apply in_app_or in Hin. destruct Hin as [Hin|Hin].
    + exists item, k, o. auto.
    + destruct (IH (S k) o2 c Hl Hin) as (item' & j & out' & Hi & Hv' & Hc).
      exists item', j, out'. auto.
Qed.

Lemma loop_length (n : nat) (services : list node) :
  forall k out,
    loop n k services [] = Ok out -> (length out <= length services)%nat.
Proof.
  induction services as [|item services IH]; intros k out; simpl.
  - intros [= <-]. simpl. lia.
  - destruct (visit n k [] item) as [o|] eqn:Hv; simpl; [|discriminate].
    rewrite loop_entries.
    destruct (loop n (S k) services []) as [o2|] eqn:Hl; simpl;
      [|discriminate].
    intros [= <-]. rewrite length_app.
    pose proof (visit_at_most_one n k item o Hv).
    pose proof (IH (S k) o2 Hl). lia.
Qed.


Lemma normalize_seasonal (label : string) :
  contains "clean" (lower label) = true ->
  contains "spring" (lower label) || contains "summer" (lower label)
  || contains "winter" (lower label) = true ->
  exists season canonical,
    In (season, canonical) seasons /\
    contains season (lower label) = true /\
    normalize label = canonical.
Proof.
  intros Hc Hs. unfold normalize, seasons. rewrite Hc, !andb_true_r.
  destruct (contains "spring" (lower label)) eqn:H1.
  { exists "spring", "Spring Clean-Up". simpl. auto. }
  destruct (contains "summer" (lower label)) eqn:H2.
  { exists "summer", "Summer Clean-Up". simpl. auto. }
  destruct (contains "winter" (lower label)) eqn:H3.
  { exists "winter", "Winter Clean-Up". simpl. auto 6. }
  discriminate.
Qed.

Lemma seasons_icon (season canonical : string) :
  In (season, canonical) seasons -> ICON_MAP_get canonical = CLEANUP_ICON.
Proof.
  unfold seasons. simpl.
  intros [[= <- <-]|[[= <- <-]|[[= <- <-]|[]]]]; vm_compute; reflexivity.
Qed.

End visit_facts.

(* ===================================================================== *)
(** ** Woollahra: [fetch] *)
(* ===================================================================== *)

Section fetch_facts.
Import woollahra_nsw_gov_au.
Context `{Externals}.

(** The visit of the main page never fails: it makes one request, and
    sleeps when the status is unexpected. *)
Lemma visit_main_page_Ok (w : world) :
  exists w0, visit_main_page w = (w0, Ok tt).
Proof.
  unfold visit_main_page, try_except, bind, session_get.
  destruct (upstream (requests w) main_page_url) as [r|e].
  - destruct (negb _); unfold time_sleep, ret; eauto.
  - unfold ret. eauto.
Qed.

Lemma bind_Ok {A B : Type} (m : M A) (k : A -> M B) (w w1 : world) (a : A) :
  m w = (w1, Ok a) -> bind m k w = k a w1.
Proof. intros Hm. unfold bind. now rewrite Hm. Qed.

Lemma bind_ret {A B : Type} (a : A) (k : A -> M B) :
  bind (ret a) k = k a.
Proof. reflexivity. Qed.

Lemma bind_lift {A B : Type} (a : A) (k : A -> M B) :
  bind (lift (Ok a)) k = k a.
Proof. reflexivity. Qed.

Ltac run_binds :=
  repeat first [rewrite bind_ret | rewrite bind_lift | progress cbv beta iota].

Lemma no_status_message_bind {A B : Type} (m : M A) (k : A -> M B) (w : world) :
  no_status_message (m w) ->
  (forall a w1, m w = (w1, Ok a) -> no_status_message (k a w1)) ->
  no_status_message (bind m k w).
Proof.
  intros Hm Hk w' msg. unfold bind.
  destruct (m w) as [w1 [a|e]] eqn:Hmw.
  - apply (Hk a w1 eq_refl).
  - intros Heq. apply (Hm w' msg). congruence.
Qed.

Lemma no_status_message_lift {A : Type} (r : res A) (w : world) :
  (forall msg, r <> Err (Exception msg)) ->
  no_status_message (lift r w).
Proof.
  intros Hr w' msg [= _ ->]. now destruct (Hr msg).
Qed.

Lemma no_status_message_ret {A : Type} (a : A) (w : world) :
  no_status_message (ret a w).
Proof. intros w' msg. discriminate. Qed.

Lemma no_status_message_raise {A : Type} (e : exn) (w : world) :
  (forall msg, e = Exception msg -> String.prefix "Unable to access" msg = false) ->
  no_status_message (@raise A e w).
Proof. intros He w' msg [= _ ->]. now apply He. Qed.

Lemma get_no_Exception (v : json) (key msg : string) :
  get v key <> Err (Exception msg).
Proof. unfold get. repeat case_match; discriminate. Qed.

Lemma subscript_no_Exception (v : json) (key msg : string) :
  subscript v key <> Err (Exception msg).
Proof. unfold subscript. repeat case_match; discriminate. Qed.

Lemma subscript0_no_Exception (v : json) (msg : string) :
  subscript0 v <> Err (Exception msg).
Proof. unfold subscript0. repeat case_match; discriminate. Qed.

Lemma len_no_Exception (v : json) (msg : string) :
  len v <> Err (Exception msg).
Proof. unfold len. repeat case_match; discriminate. Qed.

Lemma loads_or_no_status_message (r : response) (denied invalid : string)
      (w : world) :
  String.prefix "Unable to access" denied = false ->
  String.prefix "Unable to access" invalid = false ->
  no_status_message (loads_or r denied invalid w).
Proof.
  intros Hd Hi. unfold loads_or.
  destruct (json_loads (text r)); [apply no_status_message_ret|].
  destruct (contains _ _); apply no_status_message_raise; congruence.
Qed.

Lemma helper_no_status_message (url : string) (m : Z) (w : world) :
  no_status_message (_make_request_with_retry url m w).
Proof.
  intros w' msg. apply attempt_loop_Exception.
Qed.

(** No run of [fetch] ends in one of the messages of its two status
    checks. *)
Lemma fetch_no_status_message (self : Source) (w : world) :
  no_status_message (fetch self w).
Proof.
  unfold fetch.
  apply no_status_message_bind.
  { destruct (visit_main_page_Ok w) as [w0 ->]. intros ? ?. discriminate. }
  intros _ w0 _.
  apply no_status_message_bind; [apply helper_no_status_message|].
  intros r w1 Hr. apply attempt_loop_Ok in Hr. rewrite Hr. cbn [Z.eqb negb Pos.eqb].
  apply no_status_message_bind;
    [now apply loads_or_no_status_message|].
  intros data w2 _.
  apply no_status_message_bind;
    [apply no_status_message_lift; intros; apply get_no_Exception|].
  intros items w3 _.
  apply no_status_message_bind.
  { destruct (truthy items); [|apply no_status_message_ret].
    apply no_status_message_bind;
      [apply no_status_message_lift; intros; apply subscript_no_Exception|].
    intros; apply no_status_message_bind;
      [apply no_status_message_lift; intros; apply len_no_Exception|].
    intros; apply no_status_message_ret. }
  intros found w4 _.
  apply no_status_message_bind.
  { destruct found; [|apply no_status_message_ret].
    apply no_status_message_bind;
      [apply no_status_message_lift; intros; apply subscript_no_Exception|].
    intros; apply no_status_message_bind;
      [apply no_status_message_lift; intros; apply subscript0_no_Exception|].
    intros; apply no_status_message_lift; intros; apply subscript_no_Exception. }
  intros location_id w5 _.
  destruct (negb (truthy location_id));
    [apply no_status_message_raise; discriminate|].
  apply no_status_message_bind; [intros ? ?; discriminate|].
  intros _ w6 _.
  apply no_status_message_bind; [apply helper_no_status_message|].
  intros r2 w7 Hr2. apply attempt_loop_Ok in Hr2. rewrite Hr2.
  cbn [Z.eqb negb Pos.eqb].
  apply no_status_message_bind;
    [now apply loads_or_no_status_message|].
  intros data2 w8 _.
  apply no_status_message_bind;
    [apply no_status_message_lift; intros; apply get_no_Exception|].
  intros success w9 _.
  apply no_status_message_bind.
  { destruct (negb (truthy success)); [apply no_status_message_ret|].
    apply no_status_message_bind;
      [apply no_status_message_lift; intros; apply get_no_Exception|].
    intros; apply no_status_message_ret. }
  intros invalid w10 _.
  destruct invalid; [apply no_status_message_raise; discriminate|].
  apply no_status_message_bind;
    [apply no_status_message_lift; intros; apply subscript_no_Exception|].
  intros content w11 _.
  apply no_status_message_bind.
  { destruct (BeautifulSoup content);
      [apply no_status_message_ret | apply no_status_message_raise; discriminate]. }
  intros soup w12 _ w' msg. unfold for_services. intros [= _ Hl].
  apply loop_error in Hl. destruct Hl as [exception Hl]. discriminate.
Qed.

Lemma search_status_message_prefix (status : Z) :
  String.prefix "Unable to access" (search_status_message status) = true.
Proof. reflexivity. Qed.

Lemma collection_status_message_prefix (status : Z) :
  String.prefix "Unable to access" (collection_status_message status) = true.
Proof. reflexivity. Qed.

(** A run in which both requests are answered and both replies are
    sound reaches the loop, and its result is what the loop emits. *)
Lemma fetch_services (self : Source) (w w0 w1 w2 : world) (r1 r2 : response)
      (members1 first members2 : list (string * json)) (others : list json)
      (id success content : json) (soup : node) :
  visit_main_page w = (w0, Ok tt) ->
  _make_request_with_retry
    (requote_uri (address_search_url (address self))) 3 w0 = (w1, Ok r1) ->
  json_loads (text r1) = Some (JObj members1) ->
  assoc "Items" members1 = Some (JArr (JObj first :: others)) ->
  assoc "Id" first = Some id ->
  truthy id = true ->
  _make_request_with_retry
    (requote_uri (collection_url (format_value id))) 3
    (mkWorld (requests w1) (log w1 ++ [sleep 1])) = (w2, Ok r2) ->
  json_loads (text r2) = Some (JObj members2) ->
  assoc "success" members2 = Some success ->
  truthy success = true ->
  assoc "responseContent" members2 = Some content ->
  truthy content = true ->
  BeautifulSoup content = Some soup ->
  fetch self w
  = (w2, loop (requests w2) 0
           (find_all "div" (Some "waste-services-result") soup) []).
Proof.
  intros Hv Hr1 Hj1 Hi Hid Hf Hr2 Hj2 Hs Hst Hc Hct Hsoup.
  assert (Hlen : (0 <? Z.of_nat (length (JObj first :: others))) = true)
    by (apply Z.ltb_lt; simpl; lia).
  unfold fetch. rewrite (bind_Ok _ _ _ _ _ Hv), (bind_Ok _ _ _ _ _ Hr1).
  apply attempt_loop_Ok in Hr1. rewrite Hr1. cbn [Z.eqb negb Pos.eqb].
  unfold loads_or, get, subscript, len, subscript0.
  rewrite Hj1. run_binds. rewrite Hi. run_binds. cbn [truthy]. run_binds.
  rewrite Hlen. run_binds. rewrite Hid. run_binds. rewrite Hf.
  cbn [negb]. unfold bind at 1, time_sleep.
  rewrite (bind_Ok _ _ _ _ _ Hr2).
  apply attempt_loop_Ok in Hr2. rewrite Hr2. cbn [Z.eqb negb Pos.eqb].
  rewrite Hj2. run_binds. rewrite Hs. run_binds. rewrite Hst. cbn [negb].
  rewrite Hc. run_binds. rewrite Hct. cbn [negb]. run_binds.
  rewrite Hsoup. run_binds. reflexivity.
Qed.

End fetch_facts.

(* ===================================================================== *)
(** ** Barking & Dagenham: the stated properties *)
(* ===================================================================== *)

(** C1.  A body whose [results] is the single Grey-Household entry with
    next collection "Monday 01 January 2024" and one future collection
    "Monday 08 January 2024" makes [fetch] return exactly two records, dated
    2024-01-01 and 2024-01-08 in this order, both typed "General waste" with
    icon "mdi:trash-can".  For every body whose [results] is an array,
    [fetch] returns [cs] exactly when [cs] is the concatenation, in the
    order of [results], of one list per entry that holds one record per
    date of the entry, the next collection first and the future collections
    after it in array order. *)
Theorem lbbd_fetch_one_collection_per_date :
  (forall rubbish_data,
      subscript rubbish_data "results" = Ok (JArr [samples.grey_household]) ->
      lbbd_gov_uk.fetch (lbbd_gov_uk.body rubbish_data)
      = Ok [samples.general_waste 1; samples.general_waste 8])
  /\
  (forall rubbish_data results cs,
      subscript rubbish_data "results" = Ok (JArr results) ->
      lbbd_gov_uk.fetch (lbbd_gov_uk.body rubbish_data) = Ok cs
      <-> exists css, Forall2 spec_entry results css /\ cs = concat css).
Proof.
  split.
  - intros rubbish_data Hres. unfold lbbd_gov_uk.fetch. rewrite Hres.
    vm_compute. reflexivity.
  - intros rubbish_data results cs. apply fetch_Ok_iff.
Qed.

Lemma lbbd_fetch_one_collection_per_date_witness :
  lbbd_gov_uk.fetch (lbbd_gov_uk.body samples.grey_household_body)
  = Ok [samples.general_waste 1; samples.general_waste 8]
  /\ exists css,
      Forall2 spec_entry [samples.grey_household] css
      /\ [samples.general_waste 1; samples.general_waste 8] = concat css.
Proof.
  pose proof (proj1 lbbd_fetch_one_collection_per_date
                samples.grey_household_body eq_refl) as Hfetch.
  split; [exact Hfetch|].
  exact (proj1 (proj2 lbbd_fetch_one_collection_per_date
                  samples.grey_household_body [samples.grey_household] _
                  eq_refl) Hfetch).
Defined.

(** C5.  Every date of an entry goes through [strptime] with the pattern
    "%A %d %B %Y" and through nothing else: when an entry yields records,
    each record's date is what [strptime] made of the date string at its
    position.  A date string that [strptime] rejects makes [fetch] raise,
    so that no record is returned; and when everything before it in the
    response is sound, what [fetch] raises is the [ValueError] of
    [strptime] on that string. *)
Theorem lbbd_date_format_errors_propagate :
  (forall result cs,
      lbbd_gov_uk.result_entries result = Ok cs ->
      exists dates,
        lbbd_gov_uk.collection_dates result = Ok dates /\
        Forall2 (fun d c => strptime d = Ok (c_date c)) dates cs)
  /\
  (forall rubbish_data results result dates s e,
      subscript rubbish_data "results" = Ok (JArr results) ->
      In result results ->
      lbbd_gov_uk.collection_dates result = Ok dates ->
      In (JStr s) dates ->
      strptime_str s = Err e ->
      exists e', lbbd_gov_uk.fetch (lbbd_gov_uk.body rubbish_data) = Err e')
  /\
  (forall rubbish_data before result after bin_type pre post s e,
      subscript rubbish_data "results" = Ok (JArr (before ++ result :: after)) ->
      Forall (fun r => exists cs, lbbd_gov_uk.result_entries r = Ok cs) before ->
      subscript result "bin_type" = Ok bin_type ->
      hashable bin_type = true ->
      lbbd_gov_uk.collection_dates result = Ok (pre ++ JStr s :: post) ->
      Forall (fun d => exists x, strptime d = Ok x) pre ->
      strptime_str s = Err e ->
      lbbd_gov_uk.fetch (lbbd_gov_uk.body rubbish_data) = Err e
      /\ exists why, e = ValueError why).
Proof.
  split; [|split].
  - intros result cs Hcs. apply result_entries_Ok_iff in Hcs.
    destruct Hcs as (bt & ct & nc & fc & _ & _ & Hnc & Hfc & Hall).
    exists ((if truthy nc then [nc] else []) ++ fc). split.
    + unfold lbbd_gov_uk.collection_dates. now rewrite Hnc, Hfc.
    + eapply Forall2_impl; [exact Hall|]. now intros d c [? _].
  - intros rubbish_data results result dates s e Hres Hin Hdates Hs He.
    unfold lbbd_gov_uk.fetch. rewrite Hres. simpl.
    destruct (result_entries_bad_date result dates s e Hdates Hs He) as [e1 He1].
    destruct (res_map_some_error lbbd_gov_uk.result_entries results result e1
                Hin He1) as [e2 ->].
    now exists e2.
  - intros rubbish_data before result after bin_type pre post s e
           Hres Hbefore Hbt Hh Hdates Hpre He.
    split; [|now apply strptime_str_error with s].
    unfold lbbd_gov_uk.fetch. rewrite Hres. simpl.
    rewrite (res_map_first_error lbbd_gov_uk.result_entries before after result e);
      [reflexivity | assumption |].
    now apply result_entries_first_bad_date with bin_type pre post s.
Qed.

Lemma lbbd_date_format_errors_propagate_witness :
  (exists dates,
      lbbd_gov_uk.collection_dates samples.grey_household = Ok dates /\
      Forall2 (fun d c => strptime d = Ok (c_date c)) dates
              [samples.general_waste 1; samples.general_waste 8])
  /\ (exists e',
         lbbd_gov_uk.fetch
           (lbbd_gov_uk.body (JObj [("results", JArr [samples.bad_date])]))
         = Err e')
  /\ lbbd_gov_uk.fetch
       (lbbd_gov_uk.body
          (JObj [("results", JArr [samples.grey_household; samples.bad_date])]))
     = Err (ValueError (time_data_does_not_match "2024-01-09")).
Proof.
  destruct lbbd_date_format_errors_propagate as (Hparsed & Hany & Hfirst).
  split; [|split].
  - apply Hparsed. vm_compute. reflexivity.
  - apply (Hany (JObj [("results", JArr [samples.bad_date])])
                [samples.bad_date] samples.bad_date
                [JStr "Tuesday 02 January 2024"; JStr "2024-01-09"]
                "2024-01-09"
                (ValueError (time_data_does_not_match "2024-01-09"))).
    + reflexivity.
    + simpl. auto.
    + vm_compute. reflexivity.
    + simpl. auto.
    + vm_compute. reflexivity.
  - apply (Hfirst
             (JObj [("results", JArr [samples.grey_household; samples.bad_date])])
             [samples.grey_household] samples.bad_date []
             (JStr "Green-Garden") [JStr "Tuesday 02 January 2024"] []
             "2024-01-09").
    + reflexivity.
    + constructor; [|constructor]. eexists. vm_compute. reflexivity.
    + reflexivity.
    + reflexivity.
    + vm_compute. reflexivity.
    + constructor; [|constructor]. eexists. vm_compute. reflexivity.
    + vm_compute. reflexivity.
Defined.

(** C9.  The empty string, null and false are falsy; and for every entry
    whose [nextcollection] is falsy, the dates of the entry are exactly its
    [futurecollections], so that the entry yields as many records as it has
    future collections. *)
Theorem falsy_nextcollection_adds_no_date :
  truthy (JStr "") = false /\ truthy JNull = false
  /\ truthy (JBool false) = false
  /\ forall result nextcollection futurecollections,
      subscript result "nextcollection" = Ok nextcollection ->
      truthy nextcollection = false ->
      subscript result "futurecollections" = Ok (JArr futurecollections) ->
      lbbd_gov_uk.collection_dates result = Ok futurecollections
      /\ forall cs,
          lbbd_gov_uk.result_entries result = Ok cs ->
          length cs = length futurecollections.
Proof.
  do 3 (split; [reflexivity|]).
  intros result nc fc Hnc Hf Hfc.
  pose proof (collection_dates_falsy result nc fc Hnc Hf Hfc) as Hdates.
  split; [exact Hdates|].
  intros cs Hcs. apply result_entries_Ok_iff in Hcs.
  destruct Hcs as (bt & ct & nc' & fc' & _ & _ & Hnc' & Hfc' & Hall).
  rewrite Hnc in Hnc'. injection Hnc' as <-.
  rewrite Hfc in Hfc'. injection Hfc' as <-.
  rewrite Hf in Hall. simpl in Hall.
  symmetry. exact (Forall2_length _ _ _ Hall).
Qed.

Lemma falsy_nextcollection_adds_no_date_witness :
  lbbd_gov_uk.collection_dates samples.purple_bin
  = Ok [JStr "Friday 05 January 2024"; JStr "Friday 12 January 2024"]
  /\ forall cs,
      lbbd_gov_uk.result_entries samples.purple_bin = Ok cs ->
      length cs = 2%nat.
Proof.
  apply (proj2 (proj2 (proj2 falsy_nextcollection_adds_no_date))
           samples.purple_bin (JStr "")
           [JStr "Friday 05 January 2024"; JStr "Friday 12 January 2024"]);
    reflexivity.
Defined.


(* ===================================================================== *)
(** ** Woollahra: the stated properties *)
(* ===================================================================== *)

Section woollahra_properties.
Import woollahra_nsw_gov_au.
Context `{Externals}.

(** C2.  With [max_retries = 3], when the first two requests are answered
    with status 403 and the third with status 200, the helper makes exactly
    three requests, sleeps 1 second after the first and 2 seconds after the
    second, and returns the third response.  In general, once the attempts
    before it were retried, an attempt answered with status 200 ends the
    call with that response and no further request. *)
Theorem retry_forbidden_twice_then_ok :
  (forall url w r1 r2 r3,
      upstream (requests w) url = responded r1 -> status_code r1 = 403 ->
      upstream (requests w + 1)%nat url = responded r2 -> status_code r2 = 403 ->
      upstream (requests w + 2)%nat url = responded r3 -> status_code r3 = 200 ->
      _make_request_with_retry url 3 w
      = (mkWorld (requests w + 3)
           (log w ++ [GET url; sleep 1; GET url; sleep 2; GET url]),
         Ok r3))
  /\
  (forall url max_retries (k : nat) w r,
      Z.of_nat k < max_retries ->
      (forall i, (i < k)%nat ->
                 retryable (upstream (requests w + i)%nat url) = true) ->
      upstream (requests w + k)%nat url = responded r ->
      status_code r = 200 ->
      _make_request_with_retry url max_retries w
      = (mkWorld (requests w + k + 1)
           (log w ++ backoff_log url 0 k ++ [GET url]),
         Ok r)).
Proof.
  assert (Hgen : forall url max_retries (k : nat) w r,
      Z.of_nat k < max_retries ->
      (forall i, (i < k)%nat ->
                 retryable (upstream (requests w + i)%nat url) = true) ->
      upstream (requests w + k)%nat url = responded r ->
      status_code r = 200 ->
      _make_request_with_retry url max_retries w
      = (mkWorld (requests w + k + 1)
           (log w ++ backoff_log url 0 k ++ [GET url]),
         Ok r)).
  { intros url m k w r Hk Hretry Hup Hs.
    rewrite (helper_backoff url m k w Hk Hretry).
    destruct (Z.to_nat m - k)%nat as [|n] eqn:Hn; [lia|].
    cbn [seq map]. rewrite (attempt_loop_200 _ _ _ _ _ r); [|exact Hup|exact Hs].
    cbn [requests log]. rewrite <- app_assoc, Nat.add_1_r. reflexivity. }
  split; [|exact Hgen].
  intros url w r1 r2 r3 H1 S1 H2 S2 H3 S3.
  rewrite (Hgen url 3 2%nat w r3); try assumption; try lia.
  - replace (requests w + 2 + 1)%nat with (requests w + 3)%nat by lia.
    reflexivity.
  - intros i Hi.
    destruct i as [|[|i]]; [rewrite Nat.add_0_r, H1 | rewrite H2 | lia];
      simpl; lia.
Qed.

(** C3.  Once the attempts before it were retried, an attempt answered with
    a status that is neither 200 nor 403, or with 403 when it is the last
    attempt, ends the call with an error whose message gives the status and
    the number of the attempt, and no further request is made.  A loop that
    runs out of attempts raises "Max retries exceeded while fetching URL";
    a call with no attempt to make does so at once. *)
Theorem retry_fails_immediately :
  (forall url max_retries (k : nat) w r,
      Z.of_nat k < max_retries ->
      (forall i, (i < k)%nat ->
                 retryable (upstream (requests w + i)%nat url) = true) ->
      upstream (requests w + k)%nat url = responded r ->
      status_code r <> 200 ->
      status_code r <> 403 \/ Z.of_nat k = max_retries - 1 ->
      _make_request_with_retry url max_retries w
      = (mkWorld (requests w + k + 1)
           (log w ++ backoff_log url 0 k ++ [GET url]),
         Err (Exception
                ("Failed to fetch: " +:+ str_int (status_code r)
                 +:+ " (attempt " +:+ str_int (Z.of_nat k + 1) +:+ ")"))))
  /\
  (forall url max_retries w,
      attempt_loop url max_retries [] w
      = (w, Err (RequestException "Max retries exceeded while fetching URL")))
  /\
  (forall url max_retries w,
      max_retries <= 0 ->
      _make_request_with_retry url max_retries w
      = (w, Err (RequestException "Max retries exceeded while fetching URL"))).
Proof.
  split; [|split].
  - intros url m k w r Hk Hretry Hup H200 Hlast.
    rewrite (helper_backoff url m k w Hk Hretry).
    destruct (Z.to_nat m - k)%nat as [|n] eqn:Hn; [lia|].
    cbn [seq map].
    rewrite (attempt_loop_failed _ _ _ _ _ r); [|exact Hup|exact H200|lia].
    cbn [requests log]. rewrite <- app_assoc, Nat.add_1_r. reflexivity.
  - reflexivity.
  - intros url m w Hm. unfold _make_request_with_retry, range.
    replace (Z.to_nat m) with 0%nat by lia. reflexivity.
Qed.

(** C4.  When the address search is answered with a body that parses to a
    JSON object without [Items], with an empty [Items], or with a first
    item whose [Id] is falsy, [fetch] raises the error "Unable to find
    location ID for <address>. ..." naming the stored address, and the run
    ends in the very state in which the search reply arrived: nothing is
    requested after it, the collection endpoint in particular. *)
Theorem fetch_unresolved_address :
  forall self w w0 w1 r members,
    visit_main_page w = (w0, Ok tt) ->
    _make_request_with_retry
      (requote_uri (address_search_url (address self))) 3 w0 = (w1, Ok r) ->
    json_loads (text r) = Some (JObj members) ->
    unresolved members ->
    fetch self w
    = (w1,
       Err (ValueError (message
              ("Unable to find location ID for " +:+ address self
               +:+ ". Please check your address details are correct.")))).
Proof.
  intros self w w0 w1 r members Hv Hr Hj Hu.
  unfold fetch. rewrite (bind_Ok _ _ _ _ _ Hv), (bind_Ok _ _ _ _ _ Hr).
  apply attempt_loop_Ok in Hr. rewrite Hr. cbn [Z.eqb negb Pos.eqb].
  unfold loads_or. rewrite Hj.
  unfold bind, lift, ret, raise, get, subscript.
  destruct Hu as [Hi|items Hi Hf|first others id Hi Hid Hf]; rewrite Hi.
  - reflexivity.
  - rewrite Hf. reflexivity.
  - cbn.
    assert ((0 <? Z.of_nat (S (length others))) = true) as ->
      by (apply Z.ltb_lt; lia).
    rewrite Hid. cbn. rewrite Hf. reflexivity.
Qed.


(** C7.  A result block whose heading contains, in any letter case,
    "clean" and one of the season words is emitted under the canonical
    label of a season word its heading contains, with the clean-up icon
    "mdi:delete-sweep".  In particular a block with heading
    "Spring Clean Up Service" and next-service text "15/03/2025" yields one
    record, typed "Spring Clean-Up" and dated 2025-03-15 as the day-first
    parser reads that text. *)
Theorem seasonal_cleanup_normalised :
  (forall item heading c,
      find "h3" None item = Some heading ->
      contains "clean" (lower (strip (node_text heading))) = true ->
      contains "spring" (lower (strip (node_text heading)))
      || contains "summer" (lower (strip (node_text heading)))
      || contains "winter" (lower (strip (node_text heading))) = true ->
      forall n k entries,
        visit n k [] item = Ok entries ->
        In c entries ->
        exists season canonical,
          In (season, canonical) seasons /\
          contains season (lower (strip (node_text heading))) = true /\
          c_type c = JStr canonical /\
          c_icon c = Some "mdi:delete-sweep")
  /\
  (forall item heading date_element,
      find "h3" None item = Some heading ->
      strip (node_text heading) = "Spring Clean Up Service" ->
      find "div" (Some "next-service") item = Some date_element ->
      strip (node_text date_element) = "15/03/2025" ->
      forall n k,
        dateutil_parse (now n k) "15/03/2025"
        = parse_date (mkdate 2025 3 15) ->
        loop n k [item] []
        = Ok [mkCollection (mkdate 2025 3 15) (JStr "Spring Clean-Up")
                (Some "mdi:delete-sweep")]).
Proof.
  split.
  - intros item heading c Hh Hclean Hseason n k entries Hv Hin.
    destruct (visit_inv n k item entries c Hv Hin)
      as (heading' & Hh' & Ht & Hi).
    rewrite Hh in Hh'. injection Hh' as <-.
    destruct (normalize_seasonal _ Hclean Hseason)
      as (season & canonical & Hs & Hcontains & Hnorm).
    exists season, canonical. rewrite Hnorm in Ht, Hi.
    rewrite (seasons_icon season canonical Hs) in Hi. auto.
  - intros item heading date_element Hh Hht Hd Hdt n k Hp. cbn [loop].
    rewrite (visit_emits n k item heading date_element (mkdate 2025 3 15)
               Hh Hd).
    + rewrite Hht. reflexivity.
    + now rewrite Hdt.
Qed.

(** C8.  Barking & Dagenham: an entry whose [bin_type] is a string that is
    no key of [COLLECTION_MAP] yields only records typed with that raw
    string and without an icon.  Woollahra: a label that is no key of
    [ICON_MAP] gets the icon "mdi:trash-can", and so does every record the
    loop emits under such a label. *)
Theorem unknown_category_fallbacks :
  (forall result k cs,
      subscript result "bin_type" = Ok (JStr k) ->
      lbbd_gov_uk.COLLECTION_MAP !! k = None ->
      lbbd_gov_uk.result_entries result = Ok cs ->
      Forall (fun c => c_type c = JStr k /\ c_icon c = None) cs)
  /\
  (forall label,
      ICON_MAP !! label = None -> ICON_MAP_get label = "mdi:trash-can")
  /\
  (forall n k services entries c label,
      loop n k services [] = Ok entries ->
      In c entries ->
      c_type c = JStr label ->
      ICON_MAP !! label = None ->
      c_icon c = Some "mdi:trash-can").
Proof.
  split; [exact result_entries_unknown|].
  assert (Hget : forall label,
             ICON_MAP !! label = None -> ICON_MAP_get label = "mdi:trash-can").
  { intros label Hl. unfold ICON_MAP_get. now rewrite Hl. }
  split; [exact Hget|].
  intros n k services entries c label Hloop Hin Ht Hl.
  destruct (loop_In n services k entries c Hloop Hin)
    as (item & j & out & _ & Hv & Hc).
  destruct (visit_inv n j item out c Hv Hc) as (heading & _ & Ht' & Hi).
  rewrite Ht in Ht'. injection Ht' as Heq. rewrite <- Heq in Hi.
  now rewrite Hi, (Hget label Hl).
Qed.

(** C10.  Every response the helper returns has status 200.  Hence no run
    of [fetch] ends in the error of either of the two status checks that
    follow the helper's calls, whatever status the message would name. *)
Theorem status_checks_unreachable :
  (forall url max_retries w w' r,
      _make_request_with_retry url max_retries w = (w', Ok r) ->
      status_code r = 200)
  /\
  (forall self w w' status,
      fetch self w
      <> (w', Err (Exception
                    ("Unable to access Woollahra API (status: "
                     +:+ str_int status
                     +:+ "). This may be due to bot protection. Please try again later or contact support.")))
      /\ fetch self w
         <> (w', Err (Exception
                       ("Unable to access Woollahra waste services API (status: "
                        +:+ str_int status +:+ ")")))).
Proof.
  split.
  - intros url m w w' r. apply attempt_loop_Ok.
  - intros self w w' status. split; intros Hrun;
      apply (fetch_no_status_message self w) in Hrun; discriminate.
Qed.

End woollahra_properties.

(* ===================================================================== *)
(** ** The properties at the sample inputs *)
(* ===================================================================== *)

Lemma retry_forbidden_twice_then_ok_witness :
  @woollahra_nsw_gov_au._make_request_with_retry
    (samples.externals samples.forbidden_twice) "u" 3 samples.start
  = (woollahra_nsw_gov_au.mkWorld 3
       [woollahra_nsw_gov_au.GET "u"; woollahra_nsw_gov_au.sleep 1;
        woollahra_nsw_gov_au.GET "u"; woollahra_nsw_gov_au.sleep 2;
        woollahra_nsw_gov_au.GET "u"],
     Ok (woollahra_nsw_gov_au.mkResponse 200 ""))
  /\ @woollahra_nsw_gov_au._make_request_with_retry
       (samples.externals (samples.statuses [403; 200] "")) "u" 5 samples.start
     = (woollahra_nsw_gov_au.mkWorld 2
          [woollahra_nsw_gov_au.GET "u"; woollahra_nsw_gov_au.sleep 1;
           woollahra_nsw_gov_au.GET "u"],
        Ok (woollahra_nsw_gov_au.mkResponse 200 "")).
Proof.
  split.
  - apply (proj1 (@retry_forbidden_twice_then_ok
                    (samples.externals samples.forbidden_twice))
             "u" samples.start
             (woollahra_nsw_gov_au.mkResponse 403 "")
             (woollahra_nsw_gov_au.mkResponse 403 "")
             (woollahra_nsw_gov_au.mkResponse 200 ""));
      reflexivity.
  - apply (proj2 (@retry_forbidden_twice_then_ok
                    (samples.externals (samples.statuses [403; 200] "")))
             "u" 5 1%nat samples.start
             (woollahra_nsw_gov_au.mkResponse 200 "")).
    + lia.
    + intros i Hi. destruct i; [reflexivity | lia].
    + reflexivity.
    + reflexivity.
Defined.

Lemma retry_fails_immediately_witness :
  @woollahra_nsw_gov_au._make_request_with_retry
    (samples.externals samples.server_error) "u" 3 samples.start
  = (woollahra_nsw_gov_au.mkWorld 2
       [woollahra_nsw_gov_au.GET "u"; woollahra_nsw_gov_au.sleep 1;
        woollahra_nsw_gov_au.GET "u"],
     Err (Exception "Failed to fetch: 500 (attempt 2)"))
  /\ @woollahra_nsw_gov_au._make_request_with_retry
       (samples.externals samples.forbidden_thrice) "u" 3 samples.start
     = (woollahra_nsw_gov_au.mkWorld 3
          [woollahra_nsw_gov_au.GET "u"; woollahra_nsw_gov_au.sleep 1;
           woollahra_nsw_gov_au.GET "u"; woollahra_nsw_gov_au.sleep 2;
           woollahra_nsw_gov_au.GET "u"],
        Err (Exception "Failed to fetch: 403 (attempt 3)"))
  /\ @woollahra_nsw_gov_au._make_request_with_retry
       (samples.externals samples.server_error) "u" 0 samples.start
     = (samples.start,
        Err (RequestException "Max retries exceeded while fetching URL")).
Proof.
  split; [|split].
  - apply (proj1 (@retry_fails_immediately
                    (samples.externals samples.server_error))
             "u" 3 1%nat samples.start
             (woollahra_nsw_gov_au.mkResponse 500 "")).
    + lia.
    + intros i Hi. destruct i; [reflexivity | lia].
    + reflexivity.
    + simpl. lia.
    + left. simpl. lia.
  - apply (proj1 (@retry_fails_immediately
                    (samples.externals samples.forbidden_thrice))
             "u" 3 2%nat samples.start
             (woollahra_nsw_gov_au.mkResponse 403 "")).
    + lia.
    + intros i Hi. destruct i as [|[|i]]; [reflexivity | reflexivity | lia].
    + reflexivity.
    + simpl. lia.
    + right. reflexivity.
  - apply (proj2 (proj2 (@retry_fails_immediately
                           (samples.externals samples.server_error)))).
    lia.
Defined.

Lemma fetch_unresolved_address_witness :
  @woollahra_nsw_gov_au.fetch (samples.externals samples.finds_nothing)
    samples.paddington samples.start
  = (woollahra_nsw_gov_au.mkWorld 2
       [woollahra_nsw_gov_au.GET woollahra_nsw_gov_au.main_page_url;
        woollahra_nsw_gov_au.GET
          (woollahra_nsw_gov_au.address_search_url
             "13 Paddington Street PADDINGTON NSW 2021")],
     Err (ValueError (message
       "Unable to find location ID for 13 Paddington Street PADDINGTON NSW 2021. Please check your address details are correct."))).
Proof.
  apply (@fetch_unresolved_address (samples.externals samples.finds_nothing)
           samples.paddington samples.start
           (woollahra_nsw_gov_au.mkWorld 1
              [woollahra_nsw_gov_au.GET woollahra_nsw_gov_au.main_page_url])
           _
           (woollahra_nsw_gov_au.mkResponse 200 samples.no_items_text)
           [("Items", JArr [])]).
  - reflexivity.
  - vm_compute. reflexivity.
  - vm_compute. reflexivity.
  - apply items_empty with (JArr []); reflexivity.
Defined.



Lemma seasonal_cleanup_normalised_witness :
  (exists season canonical,
      In (season, canonical) seasons /\
      contains season (lower "Spring Clean Up Service") = true /\
      JStr "Spring Clean-Up" = JStr canonical /\
      Some "mdi:delete-sweep" = Some "mdi:delete-sweep")
  /\ @woollahra_nsw_gov_au.loop (samples.externals samples.answers) 3 0
       [samples.spring_block] []
     = Ok [mkCollection (mkdate 2025 3 15) (JStr "Spring Clean-Up")
             (Some "mdi:delete-sweep")].
Proof.
  split.
  - apply (proj1 (@seasonal_cleanup_normalised
                    (samples.externals samples.answers))
             samples.spring_block
             (woollahra_nsw_gov_au.Tag "h3" []
                [woollahra_nsw_gov_au.NavigableString "Spring Clean Up Service"])
             (mkCollection (mkdate 2025 3 15) (JStr "Spring Clean-Up")
                (Some "mdi:delete-sweep"))
             ltac:(reflexivity) ltac:(vm_compute; reflexivity)
             ltac:(vm_compute; reflexivity) 3%nat 0%nat
             [mkCollection (mkdate 2025 3 15) (JStr "Spring Clean-Up")
                (Some "mdi:delete-sweep")]).
    + vm_compute. reflexivity.
    + left. reflexivity.
  - apply (proj2 (@seasonal_cleanup_normalised
                    (samples.externals samples.answers))
             samples.spring_block
             (woollahra_nsw_gov_au.Tag "h3" []
                [woollahra_nsw_gov_au.NavigableString "Spring Clean Up Service"])
             (woollahra_nsw_gov_au.Tag "div" ["next-service"]
                [woollahra_nsw_gov_au.NavigableString " 15/03/2025 "]));
      vm_compute; reflexivity.
Defined.

Lemma unknown_category_fallbacks_witness :
  Forall (fun c => c_type c = JStr "Purple-Glass" /\ c_icon c = None)
    [mkCollection (mkdate 2024 1 5) (JStr "Purple-Glass") None;
     mkCollection (mkdate 2024 1 12) (JStr "Purple-Glass") None]
  /\ woollahra_nsw_gov_au.ICON_MAP_get "Glass" = "mdi:trash-can"
  /\ c_icon (mkCollection (mkdate 2025 4 1) (JStr "Glass")
               (Some "mdi:trash-can"))
     = Some "mdi:trash-can".
Proof.
  destruct (@unknown_category_fallbacks (samples.externals samples.answers))
    as (Hlbbd & Hget & Hloop).
  split; [|split].
  - apply (Hlbbd samples.purple_bin "Purple-Glass"); vm_compute; reflexivity.
  - apply Hget. vm_compute. reflexivity.
  - apply (Hloop 3%nat 0%nat [samples.glass_block]
             [mkCollection (mkdate 2025 4 1) (JStr "Glass")
                (Some "mdi:trash-can")] _ "Glass").
    + vm_compute. reflexivity.
    + left. reflexivity.
    + reflexivity.
    + vm_compute. reflexivity.
Defined.

Lemma status_checks_unreachable_witness :
  woollahra_nsw_gov_au.status_code (woollahra_nsw_gov_au.mkResponse 200 "")
  = 200.
Proof.
  apply (proj1 (@status_checks_unreachable
                  (samples.externals samples.forbidden_twice))
           "u" 3 samples.start
           (woollahra_nsw_gov_au.mkWorld 3
              [woollahra_nsw_gov_au.GET "u"; woollahra_nsw_gov_au.sleep 1;
               woollahra_nsw_gov_au.GET "u"; woollahra_nsw_gov_au.sleep 2;
               woollahra_nsw_gov_au.GET "u"])).
  vm_compute. reflexivity.
Defined.


(* ===================================================================== *)
(** ** Barking & Dagenham: further properties *)
(* ===================================================================== *)

Section matcher_facts.
Context {A B : Type}.

Lemma in_m_bind (p : matcher A) (k : A -> matcher B) (s : string)
      (b : B) (r : string) :
  In (b, r) (m_bind p k s)
  <-> exists a r', In (a, r') (p s) /\ In (b, r) (k a r').
Proof.
  unfold m_bind. rewrite in_flat_map. split.
  - intros ([a r'] & Hin & Hk). now exists a, r'.
  - intros (a & r' & Hin & Hk). now exists (a, r').
Qed.

Lemma in_m_alt (ps : list (matcher A)) (s : string) (a : A) (r : string) :
  In (a, r) (m_alt ps s) <-> exists p, In p ps /\ In (a, r) (p s).
Proof. unfold m_alt. apply in_flat_map. Qed.

Lemma m_bind_single (p : matcher A) (k : A -> matcher B) (s : string)
      (a : A) (r : string) :
  p s = [(a, r)] -> m_bind p k s = k a r ++ [].
Proof. intros Hp. unfold m_bind. now rewrite Hp. Qed.

End matcher_facts.

Lemma m_month_range (s : string) (m : Z) (r : string) :
  In (m, r) (m_month s) -> 1 <= m <= 12.
Proof.
  unfold m_month. rewrite in_m_alt. intros (p & Hp & Hin).
  apply in_map_iff in Hp. destruct Hp as ([w n] & <- & Hwn).
  apply in_m_bind in Hin. destruct Hin as ([] & r' & _ & [Heq|[]]).
  injection Heq as <- _. simpl in Hwn.
  repeat (destruct Hwn as [[= <- <-]|Hwn]; [lia|]). destruct Hwn.
Qed.

Lemma format_regex_month (s : string) (y m d : Z) (r : string) :
  In ((y, m, d), r) (format_regex s) -> 1 <= m <= 12.
Proof.
  unfold format_regex. intros Hin.
  apply in_m_bind in Hin. destruct Hin as (_ & s1 & _ & Hin).
  apply in_m_bind in Hin. destruct Hin as (_ & s2 & _ & Hin).
  apply in_m_bind in Hin. destruct Hin as (d' & s3 & _ & Hin).
  apply in_m_bind in Hin. destruct Hin as (_ & s4 & _ & Hin).
  apply in_m_bind in Hin. destruct Hin as (m' & s5 & Hm & Hin).
  apply in_m_bind in Hin. destruct Hin as (_ & s6 & _ & Hin).
  apply in_m_bind in Hin. destruct Hin as (y' & s7 & _ & [Heq|[]]).
  injection Heq as <- <- <- <-. now apply m_month_range in Hm.
Qed.

(** What [strptime] accepts is a date of the calendar. *)
Lemma strptime_str_valid (s : string) (d : date) :
  strptime_str s = Ok d -> valid_date d.
Proof.
  unfold strptime_str.
  destruct (format_regex s) as [|[[[y m] dd] rest] l] eqn:Hre; [discriminate|].
  destruct (String.eqb rest ""); [|discriminate].
  assert (Hm : 1 <= m <= 12).
  { apply (format_regex_month s y m dd rest). rewrite Hre. now left. }
  unfold make_date.
  destruct ((1 <=? y) && (y <=? 9999)) eqn:Hy; [|discriminate].
  destruct ((1 <=? dd) && (dd <=? days_in_month y m)) eqn:Hd; [|discriminate].
  simpl. intros [= <-]. unfold valid_date. simpl. lia.
Qed.

Lemma Forall2_In_r {A B : Type} (P : A -> B -> Prop) (xs : list A)
      (ys : list B) (y : B) :
  Forall2 P xs ys -> In y ys -> exists x, In x xs /\ P x y.
Proof.
  induction 1 as [|x y' xs ys Hxy _ IH]; intros Hin; [destruct Hin|].
  destruct Hin as [->|Hin].
  - exists x. split; [now left | assumption].
  - destruct (IH Hin) as (x' & Hx' & Hp). exists x'. split; [now right | assumption].
Qed.

(** The parts of a successful run of the Barking & Dagenham [fetch]. *)
Lemma lbbd_fetch_Ok_inv (rubbish_data : json) (cs : list Collection) :
  lbbd_gov_uk.fetch (lbbd_gov_uk.body rubbish_data) = Ok cs ->
  exists results css,
    res_map lbbd_gov_uk.result_entries results = Ok css /\ cs = concat css.
Proof.
  unfold lbbd_gov_uk.fetch.
  destruct (subscript rubbish_data "results") as [v|]; [simpl|discriminate].
  destruct (iter v) as [results|]; [simpl|discriminate].
  destruct (res_map lbbd_gov_uk.result_entries results) as [css|] eqn:Hmap;
    [simpl|discriminate].
  intros [= <-]. now exists results, css.
Qed.

(** X1.  Whatever the response, every record the Barking & Dagenham
    [fetch] returns carries a date of the calendar: a year in 1..9999, a
    month in 1..12 and a day that the month has in that year. *)
Theorem lbbd_fetch_dates_valid :
  forall rubbish_data cs c,
    lbbd_gov_uk.fetch (lbbd_gov_uk.body rubbish_data) = Ok cs ->
    In c cs ->
    valid_date (c_date c).
Proof.
  intros rubbish_data cs c Hrun Hin.
  destruct (lbbd_fetch_Ok_inv _ _ Hrun) as (results & css & Hmap & ->).
  apply in_concat in Hin. destruct Hin as (cs_r & Hcs_r & Hc).
  apply res_map_Ok_iff in Hmap.
  destruct (Forall2_In_r _ _ _ _ Hmap Hcs_r) as (r & _ & Hr).
  apply result_entries_Ok_iff in Hr.
  destruct Hr as (bt & ct & nc & fc & _ & _ & _ & _ & Hall).
  destruct (Forall2_In_r _ _ _ _ Hall Hc) as (d & _ & Hd & _).
  destruct d; try discriminate. now apply strptime_str_valid with s.
Qed.

Lemma lbbd_fetch_dates_valid_witness :
  valid_date (mkdate 2024 1 8).
Proof.
  apply (lbbd_fetch_dates_valid samples.grey_household_body
           [samples.general_waste 1; samples.general_waste 8]
           (samples.general_waste 8)).
  - vm_compute. reflexivity.
  - right. left. reflexivity.
Defined.

(** X2.  The name of the weekday is read and not compared with the date:
    a date string parses to the same date under every weekday name. *)
Theorem strptime_weekday_not_checked :
  forall w1 w2 rest d,
    In w1 weekday_names -> In w2 weekday_names ->
    strptime_str (w1 +:+ rest) = Ok d ->
    strptime_str (w2 +:+ rest) = Ok d.
Proof.
  intros w1 w2 rest d H1 H2.
  assert (Hname : forall w, In w weekday_names ->
                            m_weekday (w +:+ rest) = [(tt, rest)]).
  { intros w Hw. unfold weekday_names in Hw. simpl in Hw.
    repeat (destruct Hw as [<-|Hw]; [reflexivity|]). destruct Hw. }
  assert (Hre : format_regex (w1 +:+ rest) = format_regex (w2 +:+ rest)).
  { unfold format_regex.
    rewrite (m_bind_single _ _ _ _ _ (Hname w1 H1)).
    rewrite (m_bind_single _ _ _ _ _ (Hname w2 H2)). reflexivity. }
  unfold strptime_str. rewrite Hre.
  destruct (format_regex (w2 +:+ rest)); [discriminate | tauto].
Qed.

Lemma strptime_weekday_not_checked_witness :
  strptime_str "Friday 01 January 2024" = Ok (mkdate 2024 1 1).
Proof.
  apply (strptime_weekday_not_checked "Monday" "Friday" " 01 January 2024").
  - left. reflexivity.
  - do 4 right. left. reflexivity.
  - vm_compute. reflexivity.
Defined.


(** X3.  The Barking & Dagenham [fetch] returns all records or none: when
    an entry of [results] raises, [fetch] raises, whatever the entries
    before it appended; and the error is that of the first entry that
    raises. *)
Theorem lbbd_fetch_all_or_nothing :
  (forall rubbish_data results result e,
      subscript rubbish_data "results" = Ok (JArr results) ->
      In result results ->
      lbbd_gov_uk.result_entries result = Err e ->
      exists e', lbbd_gov_uk.fetch (lbbd_gov_uk.body rubbish_data) = Err e')
  /\
  (forall rubbish_data before result after e,
      subscript rubbish_data "results" = Ok (JArr (before ++ result :: after)) ->
      Forall (fun r => exists cs, lbbd_gov_uk.result_entries r = Ok cs) before ->
      lbbd_gov_uk.result_entries result = Err e ->
      lbbd_gov_uk.fetch (lbbd_gov_uk.body rubbish_data) = Err e).
Proof.
  split.
  - intros rubbish_data results result e Hres Hin He.
    unfold lbbd_gov_uk.fetch. rewrite Hres. simpl.
    destruct (res_map_some_error lbbd_gov_uk.result_entries results result e
                Hin He) as [e' ->].
    now exists e'.
  - intros rubbish_data before result after e Hres Hbefore He.
    unfold lbbd_gov_uk.fetch. rewrite Hres. simpl.
    now rewrite (res_map_first_error lbbd_gov_uk.result_entries before after
                   result e Hbefore He).
Qed.

Lemma lbbd_fetch_all_or_nothing_witness :
  lbbd_gov_uk.fetch
    (lbbd_gov_uk.body
       (JObj [("results", JArr [samples.grey_household; samples.no_next;
                                samples.bad_date])]))
  = Err (KeyError (JStr "nextcollection")).
Proof.
  apply (proj2 lbbd_fetch_all_or_nothing
           (JObj [("results", JArr [samples.grey_household; samples.no_next;
                                    samples.bad_date])])
           [samples.grey_household] samples.no_next [samples.bad_date]).
  - reflexivity.
  - constructor; [|constructor]. eexists. vm_compute. reflexivity.
  - vm_compute. reflexivity.
Defined.

(** X4.  An entry raises for the first field it lacks, in the order in
    which the loop body reads them: [bin_type], then [nextcollection], then
    [futurecollections]; a [bin_type] that is a list or an object is
    rejected before the dates are read, and [futurecollections] that is no
    list is rejected before any date is parsed. *)
Theorem lbbd_entry_field_errors :
  forall members,
    (assoc "bin_type" members = None ->
     lbbd_gov_uk.result_entries (JObj members)
     = Err (KeyError (JStr "bin_type")))
    /\ (forall bin_type,
           assoc "bin_type" members = Some bin_type ->
           hashable bin_type = false ->
           lbbd_gov_uk.result_entries (JObj members) = Err TypeError)
    /\ (forall bin_type,
           assoc "bin_type" members = Some bin_type ->
           hashable bin_type = true ->
           assoc "nextcollection" members = None ->
           lbbd_gov_uk.result_entries (JObj members)
           = Err (KeyError (JStr "nextcollection")))
    /\ (forall bin_type nextcollection,
           assoc "bin_type" members = Some bin_type ->
           hashable bin_type = true ->
           assoc "nextcollection" members = Some nextcollection ->
           assoc "futurecollections" members = None ->
           lbbd_gov_uk.result_entries (JObj members)
           = Err (KeyError (JStr "futurecollections")))
    /\ (forall bin_type nextcollection futurecollections,
           assoc "bin_type" members = Some bin_type ->
           hashable bin_type = true ->
           assoc "nextcollection" members = Some nextcollection ->
           assoc "futurecollections" members = Some futurecollections ->
           (forall l, futurecollections <> JArr l) ->
           lbbd_gov_uk.result_entries (JObj members) = Err TypeError).
Proof.
  intros members.
  assert (Hget : forall bt, hashable bt = true ->
                 exists ct, lbbd_gov_uk.COLLECTION_MAP_get bt = Ok ct).
  { intros bt Hh. unfold lbbd_gov_uk.COLLECTION_MAP_get. rewrite Hh.
    destruct bt; simpl; eauto. }
  unfold lbbd_gov_uk.result_entries, lbbd_gov_uk.collection_dates, subscript.
  repeat split.
  - intros ->. reflexivity.
  - intros bt -> Hh. simpl. unfold lbbd_gov_uk.COLLECTION_MAP_get.
    now rewrite Hh.
  - intros bt -> Hh ->. simpl. now destruct (Hget bt Hh) as [ct ->].
  - intros bt nc -> Hh -> ->. simpl. now destruct (Hget bt Hh) as [ct ->].
  - intros bt nc fc -> Hh -> -> Hfc. simpl. destruct (Hget bt Hh) as [ct ->].
    simpl. destruct fc; try reflexivity. now destruct (Hfc items).
Qed.

Lemma lbbd_entry_field_errors_witness :
  lbbd_gov_uk.result_entries samples.no_next
  = Err (KeyError (JStr "nextcollection")).
Proof.
  apply (proj1 (proj2 (proj2
           (lbbd_entry_field_errors
              [("bin_type", JStr "Brown-Recycling");
               ("futurecollections", JArr [])])))
           (JStr "Brown-Recycling")); reflexivity.
Defined.

(** X5.  An entry whose [bin_type] is a key of [COLLECTION_MAP] yields
    only records that carry the waste type and the icon the table gives
    that key; the table has exactly the keys "Grey-Household",
    "Brown-Recycling" and "Green-Garden". *)
Theorem lbbd_known_bin_type :
  (forall k,
      is_Some (lbbd_gov_uk.COLLECTION_MAP !! k)
      <-> k = "Grey-Household" \/ k = "Brown-Recycling" \/ k = "Green-Garden")
  /\
  (forall result k ct cs,
      subscript result "bin_type" = Ok (JStr k) ->
      lbbd_gov_uk.COLLECTION_MAP !! k = Some ct ->
      lbbd_gov_uk.result_entries result = Ok cs ->
      Forall (fun c => c_type c = lbbd_gov_uk.waste_type ct
                       /\ c_icon c = lbbd_gov_uk.icon ct) cs).
Proof.
  split.
  - intros k. split.
    + intros [ct Hk].
      destruct (decide (k = "Grey-Household")) as [?|H1]; [auto|].
      destruct (decide (k = "Brown-Recycling")) as [?|H2]; [auto|].
      destruct (decide (k = "Green-Garden")) as [?|H3]; [auto|].
      unfold lbbd_gov_uk.COLLECTION_MAP in Hk.
      rewrite lookup_insert_ne, lookup_insert_ne, lookup_singleton_ne in Hk
        by congruence.
      discriminate.
    + intros [-> | [-> | ->]]; eexists; vm_compute; reflexivity.
  - intros result k ct cs Hbt Hk Hcs. apply result_entries_Ok_iff in Hcs.
    destruct Hcs as (bt & ct' & nc & fc & Hbt' & Hct & _ & _ & Hall).
    rewrite Hbt in Hbt'. injection Hbt' as <-.
    unfold lbbd_gov_uk.COLLECTION_MAP_get in Hct. simpl in Hct.
    rewrite Hk in Hct. injection Hct as <-.
    induction Hall as [|d c ds cs' (_ & Ht & Hi) _ IH]; constructor; auto.
Qed.

Lemma lbbd_known_bin_type_witness :
  Forall (fun c => c_type c = JStr "Recycling" /\ c_icon c = Some "mdi:recycle")
    [mkCollection (mkdate 2024 1 3) (JStr "Recycling") (Some "mdi:recycle");
     mkCollection (mkdate 2024 1 17) (JStr "Recycling") (Some "mdi:recycle")].
Proof.
  apply (proj2 lbbd_known_bin_type samples.brown_recycling "Brown-Recycling"
           (lbbd_gov_uk.mkType (JStr "Recycling") (Some "mdi:recycle")));
    vm_compute; reflexivity.
Defined.


(* ===================================================================== *)
(** ** Woollahra: further properties of the retry helper *)
(* ===================================================================== *)

Lemma slept_app (l1 l2 : list woollahra_nsw_gov_au.event) :
  slept (l1 ++ l2) = slept l1 + slept l2.
Proof.
  induction l1 as [|[url|s] l1 IH]; simpl; lia.
Qed.

Lemma gets_app (l1 l2 : list woollahra_nsw_gov_au.event) :
  gets (l1 ++ l2) = (gets l1 + gets l2)%nat.
Proof.
  induction l1 as [|[url|s] l1 IH]; simpl; lia.
Qed.

Section retry_budget.
Import woollahra_nsw_gov_au.
Context `{Externals}.

(** What the attempts [a .. a+n-1] of a call with [max_retries = m] add to
    the log. *)
Lemma attempt_loop_budget (url : string) (m : Z) (n : nat) :
  forall (a : nat) (w w' : world) (x : res response),
    Z.of_nat (a + n) <= m ->
    attempt_loop url m (map Z.of_nat (seq a n)) w = (w', x) ->
    exists added,
      log w' = log w ++ added /\
      requests w' = (requests w + gets added)%nat /\
      (gets added <= n)%nat /\
      0 <= slept added /\
      (n = 0%nat -> slept added = 0) /\
      ((0 < n)%nat -> slept added + 2 ^ Z.of_nat a <= 2 ^ (m - 1)).
Proof.
  induction n as [|n IH]; intros a w w' x Hm.
  - cbn [seq map attempt_loop]. intros [= <- <-]. exists [].
    rewrite app_nil_r. simpl. repeat split; lia.
  - cbn [seq map]. rewrite attempt_loop_step. cbv zeta.
    assert (Hpow : 2 ^ Z.of_nat a <= 2 ^ (m - 1))
      by (apply Z.pow_le_mono_r; lia).
    assert (Hstop : forall y,
               (mkWorld (S (requests w)) (log w ++ [GET url]), y) = (w', x) ->
               exists added,
                 log w' = log w ++ added /\
                 requests w' = (requests w + gets added)%nat /\
                 (gets added <= S n)%nat /\
                 0 <= slept added /\
                 (S n = 0%nat -> slept added = 0) /\
                 ((0 < S n)%nat -> slept added + 2 ^ Z.of_nat a <= 2 ^ (m - 1))).
    { intros y [= <- _]. exists [GET url]. simpl. repeat split; lia. }
    assert (Hretry :
              Z.of_nat a < m - 1 ->
              attempt_loop url m (map Z.of_nat (seq (S a) n))
                (mkWorld (S (requests w))
                   (log w ++ [GET url; sleep (2 ^ Z.of_nat a)])) = (w', x) ->
              exists added,
                 log w' = log w ++ added /\
                 requests w' = (requests w + gets added)%nat /\
                 (gets added <= S n)%nat /\
                 0 <= slept added /\
                 (S n = 0%nat -> slept added = 0) /\
                 ((0 < S n)%nat -> slept added + 2 ^ Z.of_nat a <= 2 ^ (m - 1))).
    { intros Ha Hrun. apply IH in Hrun; [|lia].
      destruct Hrun as (added & Hlog & Hreq & Hgets & Hs0 & Hsn0 & Hsn).
      cbn [requests log] in Hlog, Hreq.
      exists ([GET url; sleep (2 ^ Z.of_nat a)] ++ added).
      assert (Hpos : 0 <= 2 ^ Z.of_nat a) by (apply Z.pow_nonneg; lia).
      assert (Hnext : 2 ^ Z.of_nat (S a) = 2 * 2 ^ Z.of_nat a)
        by (rewrite Nat2Z.inj_succ, Z.pow_succ_r; lia).
      assert (Hle : 2 ^ Z.of_nat (S a) <= 2 ^ (m - 1))
        by (apply Z.pow_le_mono_r; lia).
      rewrite slept_app, gets_app. cbn [slept gets].
      rewrite Hlog, Hreq, <- app_assoc.
      repeat split; lia. }
    destruct (upstream (requests w) url) as [r|e].
    + destruct (status_code r =? 200); [apply Hstop|].
      destruct ((status_code r =? 403) && (Z.of_nat a <? m - 1)) eqn:Hc;
        [|apply Hstop].
      apply Hretry. lia.
    + destruct (Z.of_nat a =? m - 1) eqn:Hc; [apply Hstop|].
      apply Hretry. lia.
Qed.

(** X6.  A call of the retry helper only adds to the log; it makes at most
    [max_retries] requests, each counted, and sleeps in all at most
    [2^(max_retries-1) - 1] seconds (nothing when [max_retries] is not
    positive): at most 3 requests and 3 seconds for the calls of [fetch]. *)
Theorem retry_helper_budget :
  forall url max_retries,
    within (Z.to_nat max_retries) (Z.max 0 (2 ^ (max_retries - 1) - 1))
           (_make_request_with_retry url max_retries).
Proof.
  intros url m w w' x Hrun. unfold _make_request_with_retry, range in Hrun.
  destruct (Z.le_gt_cases m 0) as [Hm|Hm].
  - replace (Z.to_nat m) with 0%nat in * by lia.
    cbn [seq map attempt_loop] in Hrun. injection Hrun as <- <-.
    exists []. rewrite app_nil_r. simpl. repeat split; lia.
  - apply attempt_loop_budget in Hrun; [|lia].
    destruct Hrun as (added & Hlog & Hreq & Hgets & Hs0 & _ & Hsn).
    exists added. repeat split; try assumption.
    specialize (Hsn ltac:(lia)). simpl in Hsn. lia.
Qed.

(** The last attempt of a call ends the call. *)
Lemma attempt_loop_wraps (url : string) (m : Z) (n : nat) :
  forall (a : nat) (w w' : world) (x : res response),
    (0 < n)%nat ->
    Z.of_nat (a + n) = m ->
    attempt_loop url m (map Z.of_nat (seq a n)) w = (w', x) ->
    (exists r, x = Ok r) \/ (exists msg, x = Err (Exception msg)).
Proof.
  induction n as [|n IH]; intros a w w' x Hn Hm; [lia|].
  cbn [seq map]. rewrite attempt_loop_step. cbv zeta.
  destruct (upstream (requests w) url) as [r|e].
  - destruct (status_code r =? 200); [intros [= _ <-]; eauto|].
    destruct ((status_code r =? 403) && (Z.of_nat a <? m - 1)) eqn:Hc;
      [|intros [= _ <-]; eauto].
    apply IH; lia.
  - destruct (Z.of_nat a =? m - 1) eqn:Hc; [intros [= _ <-]; eauto|].
    apply IH; lia.
Qed.

(** X7.  With at least one attempt to make, the retry helper either
    returns a response or raises a plain [Exception]: a network failure is
    never passed on as a [RequestException], and the "Max retries exceeded"
    error after the loop is never raised. *)
Theorem retry_helper_wraps_errors :
  forall url max_retries w w' x,
    0 < max_retries ->
    _make_request_with_retry url max_retries w = (w', x) ->
    (exists r, x = Ok r) \/ (exists msg, x = Err (Exception msg)).
Proof.
  intros url m w w' x Hm. unfold _make_request_with_retry, range.
  apply attempt_loop_wraps; lia.
Qed.

(** X8.  Once the attempts before it were retried, a network failure on
    the last attempt ends the call with the error
    "Network error: <failure>", after [max_retries] requests in all. *)
Theorem retry_network_error_on_last_attempt :
  forall url max_retries (k : nat) w e,
    Z.of_nat k = max_retries - 1 ->
    (forall i, (i < k)%nat ->
               retryable (upstream (requests w + i)%nat url) = true) ->
    upstream (requests w + k)%nat url = failed e ->
    _make_request_with_retry url max_retries w
    = (mkWorld (requests w + k + 1)
         (log w ++ backoff_log url 0 k ++ [GET url]),
       Err (Exception ("Network error: " +:+ e))).
Proof.
  intros url m k w e Hk Hretry Hup.
  rewrite (helper_backoff url m k w); [|lia|exact Hretry].
  destruct (Z.to_nat m - k)%nat as [|n] eqn:Hn; [lia|].
  cbn [seq map]. rewrite attempt_loop_step. cbv zeta. cbn [requests log].
  rewrite Hup.
  assert ((Z.of_nat k =? m - 1) = true) as -> by lia.
  rewrite <- app_assoc, Nat.add_1_r. reflexivity.
Qed.

End retry_budget.

Lemma retry_helper_budget_witness :
  exists added,
    [woollahra_nsw_gov_au.GET "u"; woollahra_nsw_gov_au.sleep 1;
     woollahra_nsw_gov_au.GET "u"; woollahra_nsw_gov_au.sleep 2;
     woollahra_nsw_gov_au.GET "u"] = [] ++ added
    /\ 3%nat = (0 + gets added)%nat
    /\ (gets added <= 3)%nat
    /\ 0 <= slept added <= 3.
Proof.
  apply (@retry_helper_budget (samples.externals samples.forbidden_thrice)
           "u" 3 samples.start
           (woollahra_nsw_gov_au.mkWorld 3
              [woollahra_nsw_gov_au.GET "u"; woollahra_nsw_gov_au.sleep 1;
               woollahra_nsw_gov_au.GET "u"; woollahra_nsw_gov_au.sleep 2;
               woollahra_nsw_gov_au.GET "u"])
           (Err (Exception "Failed to fetch: 403 (attempt 3)"))).
  vm_compute. reflexivity.
Defined.

Lemma retry_helper_wraps_errors_witness :
  (exists r : woollahra_nsw_gov_au.response,
      Err (Exception "Network error: timed out") = Ok r)
  \/ (exists msg,
         @Err woollahra_nsw_gov_au.response
              (Exception "Network error: timed out")
         = Err (Exception msg)).
Proof.
  apply (@retry_helper_wraps_errors (samples.externals samples.unreachable)
           "u" 3 samples.start
           (woollahra_nsw_gov_au.mkWorld 3
              [woollahra_nsw_gov_au.GET "u"; woollahra_nsw_gov_au.sleep 1;
               woollahra_nsw_gov_au.GET "u"; woollahra_nsw_gov_au.sleep 2;
               woollahra_nsw_gov_au.GET "u"])).
  - lia.
  - vm_compute. reflexivity.
Defined.

Lemma retry_network_error_on_last_attempt_witness :
  @woollahra_nsw_gov_au._make_request_with_retry
    (samples.externals samples.unreachable) "u" 3 samples.start
  = (woollahra_nsw_gov_au.mkWorld 3
       [woollahra_nsw_gov_au.GET "u"; woollahra_nsw_gov_au.sleep 1;
        woollahra_nsw_gov_au.GET "u"; woollahra_nsw_gov_au.sleep 2;
        woollahra_nsw_gov_au.GET "u"],
     Err (Exception "Network error: timed out")).
Proof.
  apply (@retry_network_error_on_last_attempt
           (samples.externals samples.unreachable) "u" 3 2%nat samples.start
           "timed out").
  - reflexivity.
  - intros i Hi. destruct i as [|[|i]]; [reflexivity | reflexivity | lia].
  - reflexivity.
Defined.


(* ===================================================================== *)
(** ** Woollahra: further properties of [fetch] *)
(* ===================================================================== *)

Section fetch_paths.
Import woollahra_nsw_gov_au.
Context `{Externals}.

Ltac run_binds :=
  repeat first [rewrite bind_ret | rewrite bind_lift | progress cbv beta iota].

(** X9.  The visit of the main page never fails and makes exactly one
    request: a network failure is swallowed, a status other than 200 and
    403 costs a sleep of 2 seconds, and nothing else is done. *)
Theorem main_page_visit_never_fails :
  forall w,
    visit_main_page w
    = (mkWorld (S (requests w))
         (log w ++ GET main_page_url
              :: match upstream (requests w) main_page_url with
                 | responded r =>
                     if (status_code r =? 200) || (status_code r =? 403)
                     then [] else [sleep 2]
                 | failed _ => []
                 end),
       Ok tt).
Proof.
  intros w. unfold visit_main_page, try_except, bind, session_get.
  destruct (upstream (requests w) main_page_url) as [r|e]; [|reflexivity].
  destruct ((status_code r =? 200) || (status_code r =? 403)); cbn [negb].
  - reflexivity.
  - unfold time_sleep. cbn [requests log]. now rewrite <- app_assoc.
Qed.

(** X10.  The search stage of [fetch]: an error of the retry helper is
    passed on as it is; a reply that is no JSON raises the "Access denied"
    message when its text contains "Access Denied" and the "Invalid JSON"
    message otherwise; a reply that is JSON but no object raises
    [AttributeError].  In each case the run ends where the search ended. *)
Theorem fetch_search_stage_errors :
  forall self w w0,
    visit_main_page w = (w0, Ok tt) ->
    (forall w1 e,
        _make_request_with_retry
          (requote_uri (address_search_url (address self))) 3 w0
        = (w1, Err e) ->
        fetch self w = (w1, Err e))
    /\ (forall w1 r,
           _make_request_with_retry
             (requote_uri (address_search_url (address self))) 3 w0
           = (w1, Ok r) ->
           json_loads (text r) = None ->
           fetch self w
           = (w1,
              Err (Exception
                     (if contains "Access Denied" (text r)
                      then "Access denied by Woollahra website. This may be due to bot protection measures. Please try again later."
                      else "Invalid JSON response from address search API"))))
    /\ (forall w1 r v,
           _make_request_with_retry
             (requote_uri (address_search_url (address self))) 3 w0
           = (w1, Ok r) ->
           json_loads (text r) = Some v ->
           (forall members, v <> JObj members) ->
           fetch self w = (w1, Err AttributeError)).
Proof.
  intros self w w0 Hv. repeat split.
  - intros w1 e Hr. unfold fetch. rewrite (bind_Ok _ _ _ _ _ Hv).
    unfold bind. now rewrite Hr.
  - intros w1 r Hr Hj. unfold fetch.
    rewrite (bind_Ok _ _ _ _ _ Hv), (bind_Ok _ _ _ _ _ Hr).
    apply attempt_loop_Ok in Hr. rewrite Hr. cbn [Z.eqb negb Pos.eqb].
    unfold loads_or, bind. rewrite Hj.
    now destruct (contains "Access Denied" (text r)).
  - intros w1 r v Hr Hj Hv'. unfold fetch.
    rewrite (bind_Ok _ _ _ _ _ Hv), (bind_Ok _ _ _ _ _ Hr).
    apply attempt_loop_Ok in Hr. rewrite Hr. cbn [Z.eqb negb Pos.eqb].
    unfold loads_or. rewrite Hj. run_binds.
    destruct v; try reflexivity. now destruct (Hv' members).
Qed.

(** The run of [fetch] up to the request for the schedule, after a search
    that resolved. *)
Ltac search_done Hv Hr1 Hj1 Hi Hid Hf :=
  let Hlen := fresh "Hlen" in
  match type of Hi with
  | _ = Some (JArr ?items) =>
      assert (Hlen : (0 <? Z.of_nat (length items)) = true)
        by (apply Z.ltb_lt; simpl; lia)
  end;
  unfold fetch; rewrite (bind_Ok _ _ _ _ _ Hv), (bind_Ok _ _ _ _ _ Hr1);
  rewrite (attempt_loop_Ok _ _ _ _ _ _ Hr1); cbn [Z.eqb negb Pos.eqb];
  unfold loads_or, get, subscript, len, subscript0;
  rewrite Hj1; run_binds; rewrite Hi; run_binds; cbn [truthy]; run_binds;
  rewrite Hlen; run_binds; rewrite Hid; run_binds; rewrite Hf;
  cbn [negb]; unfold bind at 1, time_sleep; unfold bind at 1.

(** X11.  The schedule stage of [fetch], after a search that resolved and
    the delay of one second: an error of the retry helper is passed on as
    it is; a reply that is no JSON raises the "Access denied" message when
    its text contains "Access Denied" and the "Invalid JSON" message
    otherwise; a JSON object whose [success] or [responseContent] is
    missing or falsy raises [RuntimeError] "Invalid response from waste
    services API". *)
Theorem fetch_schedule_stage_errors :
  forall self w w1 id,
    search_resolves self w w1 id ->
    (forall w2 e,
        _make_request_with_retry
          (requote_uri (collection_url (format_value id))) 3
          (mkWorld (requests w1) (log w1 ++ [sleep 1])) = (w2, Err e) ->
        fetch self w = (w2, Err e))
    /\ (forall w2 r,
           _make_request_with_retry
             (requote_uri (collection_url (format_value id))) 3
             (mkWorld (requests w1) (log w1 ++ [sleep 1])) = (w2, Ok r) ->
           json_loads (text r) = None ->
           fetch self w
           = (w2,
              Err (Exception
                     (if contains "Access Denied" (text r)
                      then "Access denied by Woollahra website during waste services fetch."
                      else "Invalid JSON response from waste services API"))))
    /\ (forall w2 r members,
           _make_request_with_retry
             (requote_uri (collection_url (format_value id))) 3
             (mkWorld (requests w1) (log w1 ++ [sleep 1])) = (w2, Ok r) ->
           json_loads (text r) = Some (JObj members) ->
           truthy (default JNull (assoc "success" members)) = false
           \/ truthy (default JNull (assoc "responseContent" members)) = false ->
           fetch self w
           = (w2, Err (RuntimeError "Invalid response from waste services API"))).
Proof.
  intros self w w1 id
         (w0 & r1 & members1 & first & others & Hv & Hr1 & Hj1 & Hi & Hid & Hf).
  repeat split.
  - intros w2 e Hr2. search_done Hv Hr1 Hj1 Hi Hid Hf. now rewrite Hr2.
  - intros w2 r Hr2 Hj2. search_done Hv Hr1 Hj1 Hi Hid Hf. rewrite Hr2.
    rewrite (attempt_loop_Ok _ _ _ _ _ _ Hr2). cbn [Z.eqb negb Pos.eqb].
    unfold bind. rewrite Hj2.
    now destruct (contains "Access Denied" (text r)).
  - intros w2 r members Hr2 Hj2 Hbad. search_done Hv Hr1 Hj1 Hi Hid Hf.
    rewrite Hr2.
    rewrite (attempt_loop_Ok _ _ _ _ _ _ Hr2). cbn [Z.eqb negb Pos.eqb].
    rewrite Hj2. run_binds.
    destruct (assoc "success" members) as [success|]; simpl in Hbad;
      run_binds; [|reflexivity].
    destruct (truthy success) eqn:Hts; cbn [negb]; run_binds; [|reflexivity].
    destruct Hbad as [?|Hbad]; [congruence|].
    destruct (assoc "responseContent" members) as [content|];
      simpl in Hbad; run_binds; [|reflexivity].
    rewrite Hbad. reflexivity.
Qed.

(** X12.  When every request is answered at once with status 200 and the
    replies are sound, a run of [fetch] makes exactly three requests, to
    the main page, the search and the schedule in this order, sleeps one
    second between the last two, and ends as the loop over the result
    blocks ends, run after these three requests: with the entries of the
    loop, or with the exception that left the date parser. *)
Theorem fetch_happy_path_trace :
  forall self w r0 r1 r2 members1 first others id members2 success content soup,
    let q1 := requote_uri (address_search_url (address self)) in
    let q2 := requote_uri (collection_url (format_value id)) in
    upstream (requests w) main_page_url = responded r0 ->
    status_code r0 = 200 ->
    upstream (requests w + 1)%nat q1 = responded r1 ->
    status_code r1 = 200 ->
    json_loads (text r1) = Some (JObj members1) ->
    assoc "Items" members1 = Some (JArr (JObj first :: others)) ->
    assoc "Id" first = Some id ->
    truthy id = true ->
    upstream (requests w + 2)%nat q2 = responded r2 ->
    status_code r2 = 200 ->
    json_loads (text r2) = Some (JObj members2) ->
    assoc "success" members2 = Some success ->
    truthy success = true ->
    assoc "responseContent" members2 = Some content ->
    truthy content = true ->
    BeautifulSoup content = Some soup ->
    fetch self w
    = (mkWorld (requests w + 3)
         (log w ++ [GET main_page_url; GET q1; sleep 1; GET q2]),
       loop (requests w + 3) 0
         (find_all "div" (Some "waste-services-result") soup) []).
Proof.
  intros self w r0 r1 r2 members1 first others id members2 success content
         soup q1 q2 H0 S0 H1 S1 Hj1 Hi Hid Hf H2 S2 Hj2 Hs Hst Hc Hct Hsoup.
  apply (fetch_services self w
           (mkWorld (requests w + 1) (log w ++ [GET main_page_url]))
           (mkWorld (requests w + 2) (log w ++ [GET main_page_url; GET q1]))
           (mkWorld (requests w + 3)
              (log w ++ [GET main_page_url; GET q1; sleep 1; GET q2]))
           r1 r2 members1 first members2 others id success content soup);
    try assumption.
  - unfold visit_main_page, try_except, bind, session_get.
    rewrite H0, S0. cbn [Z.eqb Pos.eqb orb negb]. unfold ret.
    now rewrite Nat.add_1_r.
  - unfold _make_request_with_retry.
    change (range 3) with [0; 1; 2].
    rewrite (attempt_loop_200 _ _ _ _ _ r1); cbn [requests log];
      [|exact H1|exact S1].
    rewrite <- app_assoc. f_equal. f_equal. lia.
  - unfold _make_request_with_retry.
    change (range 3) with [0; 1; 2].
    rewrite (attempt_loop_200 _ _ _ _ _ r2); cbn [requests log];
      [|exact H2|exact S2].
    rewrite <- !app_assoc. f_equal. f_equal. lia.
Qed.

End fetch_paths.


Lemma fetch_search_stage_errors_witness :
  @woollahra_nsw_gov_au.fetch (samples.externals samples.unreachable)
    samples.paddington samples.start
  = (woollahra_nsw_gov_au.mkWorld 4
       [woollahra_nsw_gov_au.GET woollahra_nsw_gov_au.main_page_url;
        woollahra_nsw_gov_au.GET
          (woollahra_nsw_gov_au.address_search_url
             "13 Paddington Street PADDINGTON NSW 2021");
        woollahra_nsw_gov_au.sleep 1;
        woollahra_nsw_gov_au.GET
          (woollahra_nsw_gov_au.address_search_url
             "13 Paddington Street PADDINGTON NSW 2021");
        woollahra_nsw_gov_au.sleep 2;
        woollahra_nsw_gov_au.GET
          (woollahra_nsw_gov_au.address_search_url
             "13 Paddington Street PADDINGTON NSW 2021")],
     Err (Exception "Network error: timed out"))
  /\ @woollahra_nsw_gov_au.fetch (samples.externals samples.blocks)
       samples.paddington samples.start
     = (samples.after_search,
        Err (Exception
               "Access denied by Woollahra website. This may be due to bot protection measures. Please try again later.")).
Proof.
  split.
  - apply (proj1 (@fetch_search_stage_errors
                    (samples.externals samples.unreachable)
                    samples.paddington samples.start samples.after_main_page
                    eq_refl)).
    vm_compute. reflexivity.
  - apply (proj1 (proj2 (@fetch_search_stage_errors
                           (samples.externals samples.blocks)
                           samples.paddington samples.start
                           samples.after_main_page eq_refl))
             samples.after_search
             (woollahra_nsw_gov_au.mkResponse 200 "<html>Access Denied</html>")).
    + vm_compute. reflexivity.
    + vm_compute. reflexivity.
Defined.

Lemma fetch_schedule_stage_errors_witness :
  @woollahra_nsw_gov_au.fetch (samples.externals samples.schedule_down)
    samples.paddington samples.start
  = (woollahra_nsw_gov_au.mkWorld 3
       [woollahra_nsw_gov_au.GET woollahra_nsw_gov_au.main_page_url;
        woollahra_nsw_gov_au.GET
          (woollahra_nsw_gov_au.address_search_url
             "13 Paddington Street PADDINGTON NSW 2021");
        woollahra_nsw_gov_au.sleep 1;
        woollahra_nsw_gov_au.GET (woollahra_nsw_gov_au.collection_url "42")],
     Err (Exception "Failed to fetch: 500 (attempt 1)")).
Proof.
  apply (proj1 (@fetch_schedule_stage_errors
                  (samples.externals samples.schedule_down)
                  samples.paddington samples.start samples.after_search
                  (JInt 42)
                  (ex_intro _ samples.after_main_page
                     (ex_intro _
                        (woollahra_nsw_gov_au.mkResponse 200
                           samples.one_item_text)
                        (ex_intro _ [("Items", JArr [JObj [("Id", JInt 42)]])]
                           (ex_intro _ [("Id", JInt 42)]
                              (ex_intro _ []
                                 (conj eq_refl
                                    (conj eq_refl
                                       (conj eq_refl
                                          (conj eq_refl
                                             (conj eq_refl eq_refl)))))))))))).
  vm_compute. reflexivity.
Defined.

Lemma fetch_happy_path_trace_witness :
  @woollahra_nsw_gov_au.fetch (samples.externals samples.answers)
    samples.paddington samples.start
  = (woollahra_nsw_gov_au.mkWorld 3
       [woollahra_nsw_gov_au.GET woollahra_nsw_gov_au.main_page_url;
        woollahra_nsw_gov_au.GET
          (woollahra_nsw_gov_au.address_search_url
             "13 Paddington Street PADDINGTON NSW 2021");
        woollahra_nsw_gov_au.sleep 1;
        woollahra_nsw_gov_au.GET (woollahra_nsw_gov_au.collection_url "42")],
     Ok [mkCollection (mkdate 2025 3 15) (JStr "Spring Clean-Up")
           (Some "mdi:delete-sweep");
         mkCollection (mkdate 2025 4 1) (JStr "Glass") (Some "mdi:trash-can")]).
Proof.
  apply (@fetch_happy_path_trace (samples.externals samples.answers)
           samples.paddington samples.start
           (woollahra_nsw_gov_au.mkResponse 200 "")
           (woollahra_nsw_gov_au.mkResponse 200 samples.one_item_text)
           (woollahra_nsw_gov_au.mkResponse 200 samples.schedule_text)
           [("Items", JArr [JObj [("Id", JInt 42)]])]
           [("Id", JInt 42)] [] (JInt 42)
           [("success", JBool true);
            ("responseContent", JStr samples.schedule_html)]
           (JBool true) (JStr samples.schedule_html) samples.schedule_soup);
    vm_compute; reflexivity.
Defined.


(* ===================================================================== *)
(** ** Woollahra: what a run of [fetch] costs *)
(* ===================================================================== *)

Section fetch_budget.
Import woollahra_nsw_gov_au.
Context `{Externals}.

Lemma constant_ret {A : Type} (a : A) : constant (ret a).
Proof. now exists (Ok a). Qed.

Lemma constant_raise {A : Type} (e : exn) : constant (@raise A e).
Proof. now exists (Err e). Qed.

Lemma constant_lift {A : Type} (r : res A) : constant (lift r).
Proof. now exists r. Qed.

Lemma constant_bind {A B : Type} (m : M A) (k : A -> M B) :
  constant m -> (forall a, constant (k a)) -> constant (bind m k).
Proof.
  intros [r Hm] Hk. unfold bind. destruct r as [a|e].
  - destruct (Hk a) as [r' Hka]. exists r'. intros w. now rewrite Hm, Hka.
  - exists (Err e). intros w. now rewrite Hm.
Qed.

Lemma constant_loads_or (r : response) (denied invalid : string) :
  constant (loads_or r denied invalid).
Proof.
  unfold loads_or. destruct (json_loads (text r)); [apply constant_ret|].
  destruct (contains _ _); apply constant_raise.
Qed.

Ltac constant_steps :=
  repeat first
    [ apply constant_ret | apply constant_raise | apply constant_lift
    | apply constant_loads_or
    | apply constant_bind; [|intros ?]
    | match goal with
      | |- constant (if ?c then _ else _) => destruct c
      | |- constant (match ?o with Some _ => _ | None => _ end) => destruct o
      end ].

Lemma within_constant {A : Type} (n : nat) (s : Z) (m : M A) :
  0 <= s -> constant m -> within n s m.
Proof.
  intros Hs [r Hm] w w' x. rewrite Hm. intros [= <- <-]. exists [].
  rewrite app_nil_r. simpl. repeat split; lia.
Qed.

Lemma within_bind {A B : Type} (n1 n2 : nat) (s1 s2 : Z) (m : M A)
      (k : A -> M B) :
  0 <= s2 ->
  within n1 s1 m -> (forall a, within n2 s2 (k a)) ->
  within (n1 + n2) (s1 + s2) (bind m k).
Proof.
  intros Hpos Hm Hk w w' x. unfold bind.
  destruct (m w) as [w1 [a|e]] eqn:Hmw.
  - intros Hrun.
    destruct (Hm _ _ _ Hmw) as (l1 & Hl1 & Hr1 & Hg1 & Hs1).
    destruct (Hk a _ _ _ Hrun) as (l2 & Hl2 & Hr2 & Hg2 & Hs2).
    exists (l1 ++ l2). rewrite gets_app, slept_app, Hl2, Hl1, Hr2, Hr1.
    rewrite <- app_assoc. repeat split; lia.
  - intros [= <- <-].
    destruct (Hm _ _ _ Hmw) as (l1 & Hl1 & Hr1 & Hg1 & Hs1).
    exists l1. repeat split; try assumption; lia.
Qed.

Lemma within_visit_main_page : within 1 2 visit_main_page.
Proof.
  intros w w' x. unfold visit_main_page, try_except, bind, session_get.
  destruct (upstream (requests w) main_page_url) as [r|e].
  - destruct (negb _); unfold time_sleep, ret; cbn [requests log];
      intros [= <- <-]; cbn [requests log].
    + exists [GET main_page_url; sleep 2]. rewrite <- app_assoc. simpl.
      repeat split; lia.
    + exists [GET main_page_url]. simpl. repeat split; lia.
  - unfold ret. intros [= <- <-]. exists [GET main_page_url]. simpl.
    repeat split; lia.
Qed.

Lemma within_helper3 (url : string) :
  within 3 3 (_make_request_with_retry url 3).
Proof.
  intros w w' x. unfold _make_request_with_retry, range.
  change (Z.to_nat 3) with 3%nat. intros Hrun.
  apply attempt_loop_budget in Hrun; [|lia].
  destruct Hrun as (added & Hlog & Hreq & Hgets & Hs0 & _ & Hsn).
  exists added. repeat split; try assumption.
  specialize (Hsn ltac:(lia)). simpl in Hsn. lia.
Qed.

Lemma within_time_sleep (s : Z) : 0 <= s -> within 0 s (time_sleep s).
Proof.
  intros Hs w w' x. unfold time_sleep. intros [= <- <-]. exists [sleep s].
  simpl. repeat split; lia.
Qed.

(** The loop over the result blocks makes no request and does not
    sleep. *)
Lemma within_for_services (services : list node) :
  within 0 0 (for_services services).
Proof.
  intros w w' x. unfold for_services. intros [= <- <-]. exists [].
  rewrite app_nil_r. simpl. repeat split; lia.
Qed.

(** Nor does the rest of [fetch] after the schedule reply. *)
Lemma within_schedule (r : response) :
  within 0 0
    (data <- loads_or r
       "Access denied by Woollahra website during waste services fetch."
       "Invalid JSON response from waste services API" ;;
     success <- lift (get data "success") ;;
     invalid <- (if negb (truthy success) then ret true
                 else (content <- lift (get data "responseContent") ;;
                       ret (negb (truthy content)))) ;;
     if invalid : bool then
       raise (RuntimeError "Invalid response from waste services API")
     else
     response_content <- lift (subscript data "responseContent") ;;
     soup <- match BeautifulSoup response_content with
             | Some soup => ret soup
             | None => raise bs4_raised
             end ;;
     let services := find_all "div" (Some "waste-services-result") soup in
     for_services services)%M.
Proof.
  apply (within_bind 0 0 0 0);
    [lia | apply within_constant; [lia | apply constant_loads_or] | intros data].
  apply (within_bind 0 0 0 0);
    [lia | apply within_constant; [lia | apply constant_lift] | intros success].
  apply (within_bind 0 0 0 0);
    [lia | apply within_constant; [lia | constant_steps] | intros invalid].
  destruct invalid; [apply within_constant; [lia | apply constant_raise]|].
  apply (within_bind 0 0 0 0);
    [lia | apply within_constant; [lia | apply constant_lift] | intros content].
  apply (within_bind 0 0 0 0);
    [lia | apply within_constant; [lia | constant_steps] | intros soup].
  apply within_for_services.
Qed.

(** X13.  Whatever the upstream does, a run of the Woollahra [fetch] only
    adds to the log, makes at most 7 requests, each counted, and sleeps at
    most 9 seconds in all. *)
Theorem fetch_budget :
  forall self w w' x,
    fetch self w = (w', x) ->
    exists added,
      log w' = log w ++ added /\
      requests w' = (requests w + gets added)%nat /\
      (gets added <= 7)%nat /\
      0 <= slept added <= 9.
Proof.
  intros self. change (within 7 9 (fetch self)). unfold fetch.
  apply (within_bind 1 6 2 7); [lia | apply within_visit_main_page | intros _].
  apply (within_bind 3 3 3 4); [lia | apply within_helper3 | intros r].
  destruct (negb (status_code r =? 200));
    [apply within_constant; [lia | apply constant_raise]|].
  apply (within_bind 0 3 0 4);
    [lia | apply within_constant; [lia | apply constant_loads_or] | intros data].
  apply (within_bind 0 3 0 4);
    [lia | apply within_constant; [lia | apply constant_lift] | intros items].
  apply (within_bind 0 3 0 4);
    [lia | apply within_constant; [lia | constant_steps] | intros found].
  apply (within_bind 0 3 0 4);
    [lia | apply within_constant; [lia | constant_steps] | intros location_id].
  destruct (negb (truthy location_id));
    [apply within_constant; [lia | apply constant_raise]|].
  apply (within_bind 0 3 1 3);
    [lia | apply within_time_sleep; lia | intros _].
  apply (within_bind 3 0 3 0); [lia | apply within_helper3 | intros r2].
  destruct (negb (status_code r2 =? 200));
    [apply within_constant; [lia | apply constant_raise]|].
  apply within_schedule.
Qed.

End fetch_budget.

Lemma fetch_budget_witness :
  exists added,
    [woollahra_nsw_gov_au.GET woollahra_nsw_gov_au.main_page_url;
     woollahra_nsw_gov_au.GET
       (woollahra_nsw_gov_au.address_search_url
          "13 Paddington Street PADDINGTON NSW 2021");
     woollahra_nsw_gov_au.sleep 1;
     woollahra_nsw_gov_au.GET (woollahra_nsw_gov_au.collection_url "42")]
    = [] ++ added
    /\ 3%nat = (0 + gets added)%nat
    /\ (gets added <= 7)%nat
    /\ 0 <= slept added <= 9.
Proof.
  apply (@fetch_budget (samples.externals samples.schedule_down)
           samples.paddington samples.start
           (woollahra_nsw_gov_au.mkWorld 3
              [woollahra_nsw_gov_au.GET woollahra_nsw_gov_au.main_page_url;
               woollahra_nsw_gov_au.GET
                 (woollahra_nsw_gov_au.address_search_url
                    "13 Paddington Street PADDINGTON NSW 2021");
               woollahra_nsw_gov_au.sleep 1;
               woollahra_nsw_gov_au.GET
                 (woollahra_nsw_gov_au.collection_url "42")])
           (Err (Exception "Failed to fetch: 500 (attempt 1)"))).
  vm_compute. reflexivity.
Defined.

(* ===================================================================== *)
(** ** Woollahra: further properties of the loop over the result blocks *)
(* ===================================================================== *)

Section loop_properties.
Import woollahra_nsw_gov_au.
Context `{Externals}.

(** X15.  The loop over the result blocks keeps the entries it has and
    appends at most one record per block: a block without an [h3] heading
    and a block without a [next-service] element append nothing, the
    records come out in the order of the blocks, and there are never more
    records than blocks. *)
Theorem loop_one_record_per_block :
  (forall n k item entries,
      find "h3" None item = None -> visit n k entries item = Ok entries)
  /\ (forall n k item entries,
         find "div" (Some "next-service") item = None ->
         visit n k entries item = Ok entries)
  /\ (forall n k services entries,
         loop n k services entries
         = (out <- loop n k services [] ;; Ok (entries ++ out))%res)
  /\ (forall n k services1 services2,
         loop n k (services1 ++ services2) []
         = (out1 <- loop n k services1 [] ;;
            out2 <- loop n (k + length services1) services2 [] ;;
            Ok (out1 ++ out2))%res)
  /\ (forall n k services out,
         loop n k services [] = Ok out ->
         (length out <= length services)%nat).
Proof.
  repeat split.
  - intros n k item entries Hh. unfold visit. now rewrite Hh.
  - intros n k item entries Hd. unfold visit. rewrite Hd.
    now destruct (find "h3" None item).
  - intros n k services entries. apply loop_entries.
  - intros n k services1 services2. rewrite loop_app.
    destruct (loop n k services1 []) as [out1|e]; [|reflexivity].
    cbn [res_bind]. apply loop_entries.
  - intros n k services out. apply loop_length.
Qed.

Lemma ICON_MAP_get_closed (label : string) :
  In (ICON_MAP_get label) woollahra_icons.
Proof.
  unfold ICON_MAP_get, woollahra_icons.
  destruct (decide (label = "General Waste")) as [->|H1]; [vm_compute; auto|].
  destruct (decide (label = "Green Waste")) as [->|H2]; [vm_compute; auto|].
  destruct (decide (label = "Recycling")) as [->|H3]; [vm_compute; auto|].
  destruct (decide (label = "Spring Clean-Up")) as [->|H4];
    [vm_compute; auto 6|].
  destruct (decide (label = "Summer Clean-Up")) as [->|H5];
    [vm_compute; auto 6|].
  destruct (decide (label = "Winter Clean-Up")) as [->|H6];
    [vm_compute; auto 6|].
  unfold ICON_MAP.
  rewrite !lookup_insert_ne, lookup_singleton_ne by congruence.
  simpl. auto.
Qed.

(** X16.  Every record the loop emits is typed by a string, the normalised
    heading of its block, and carries the icon [ICON_MAP] gives that label
    or the generic one: the icon is never absent and is always one of
    "mdi:trash-can", "mdi:leaf", "mdi:recycle" and "mdi:delete-sweep". *)
Theorem loop_records_have_known_icons :
  forall n k services out c,
    loop n k services [] = Ok out ->
    In c out ->
    exists item heading,
      In item services /\
      find "h3" None item = Some heading /\
      c_type c = JStr (normalize (strip (node_text heading))) /\
      c_icon c = Some (ICON_MAP_get (normalize (strip (node_text heading)))) /\
      In (ICON_MAP_get (normalize (strip (node_text heading)))) woollahra_icons.
Proof.
  intros n k services out c Hloop Hin.
  destruct (loop_In n services k out c Hloop Hin)
    as (item & j & out' & Hitem & Hv & Hc).
  destruct (visit_inv n j item out' c Hv Hc) as (heading & Hh & Ht & Hi).
  exists item, heading. repeat split; try assumption.
  apply ICON_MAP_get_closed.
Qed.

(** X21.  The [except] clause of [_parse_date] names [ParserError] and
    [OverflowError] only.  When the date parser raises an exception of
    another class on the next-service text of a block that has a heading,
    and the blocks before it went through, the loop ends with that
    exception, whatever the blocks after it are, and returns no entries.
    The loop ends in no error of another origin. *)
Theorem loop_parser_exception_propagates :
  (forall n before item after heading date_element exception entries,
      find "h3" None item = Some heading ->
      find "div" (Some "next-service") item = Some date_element ->
      loop n 0 before [] = Ok entries ->
      dateutil_parse (now n (length before))
        (strip (node_text date_element)) = parse_raises exception ->
      loop n 0 (before ++ item :: after) []
      = Err (raised_in_library exception))
  /\ (forall n k services entries e,
         loop n k services entries = Err e ->
         exists exception, e = raised_in_library exception).
Proof.
  split.
  - intros n before item after heading date_element exception entries
           Hh Hd Hbefore Hp.
    rewrite loop_app, Hbefore. cbn [res_bind loop Nat.add].
    now rewrite (visit_raises n (length before) entries item heading
                   date_element exception Hh Hd Hp).
  - intros n k services. apply loop_error.
Qed.

Lemma normalize_cases (label : string) :
  (In (normalize label)
      ["Spring Clean-Up"; "Summer Clean-Up"; "Winter Clean-Up"])
  \/ (normalize label = label
      /\ contains "spring" (lower label) && contains "clean" (lower label) = false
      /\ contains "summer" (lower label) && contains "clean" (lower label) = false
      /\ contains "winter" (lower label) && contains "clean" (lower label) = false).
Proof.
  unfold normalize.
  destruct (contains "spring" (lower label) && contains "clean" (lower label));
    [left; simpl; auto|].
  destruct (contains "summer" (lower label) && contains "clean" (lower label));
    [left; simpl; auto|].
  destruct (contains "winter" (lower label) && contains "clean" (lower label));
    [left; simpl; auto|].
  right. auto.
Qed.

(** X17.  The normalisation of a heading is idempotent; a heading without
    "clean" is left as it is; and among the season words spring wins over
    summer, and summer over winter. *)
Theorem normalize_idempotent_and_ordered :
  (forall label, normalize (normalize label) = normalize label)
  /\ (forall label,
         contains "clean" (lower label) = false -> normalize label = label)
  /\ (forall label,
         contains "clean" (lower label) = true ->
         contains "spring" (lower label) = true ->
         normalize label = "Spring Clean-Up")
  /\ (forall label,
         contains "clean" (lower label) = true ->
         contains "spring" (lower label) = false ->
         contains "summer" (lower label) = true ->
         normalize label = "Summer Clean-Up")
  /\ (forall label,
         contains "clean" (lower label) = true ->
         contains "spring" (lower label) = false ->
         contains "summer" (lower label) = false ->
         contains "winter" (lower label) = true ->
         normalize label = "Winter Clean-Up").
Proof.
  repeat split.
  - intros label.
    destruct (normalize_cases label) as [Hc|(Hid & _)].
    + simpl in Hc. destruct Hc as [<-|[<-|[<-|[]]]]; vm_compute; reflexivity.
    + now rewrite !Hid.
  - intros label Hc. unfold normalize. now rewrite Hc, !andb_false_r.
  - intros label Hc Hs. unfold normalize. now rewrite Hc, Hs.
  - intros label Hc Hs Hu. unfold normalize. now rewrite Hc, Hs, Hu.
  - intros label Hc Hs Hu Hw. unfold normalize. now rewrite Hc, Hs, Hu, Hw.
Qed.

End loop_properties.

Lemma loop_one_record_per_block_witness :
  @woollahra_nsw_gov_au.visit (samples.externals samples.answers)
    3 0 [] samples.headless_block = Ok []
  /\ @woollahra_nsw_gov_au.visit (samples.externals samples.answers)
       3 0 [] samples.dateless_block = Ok []
  /\ (length [mkCollection (mkdate 2025 3 15) (JStr "Spring Clean-Up")
                (Some "mdi:delete-sweep");
              mkCollection (mkdate 2025 4 1) (JStr "Glass")
                (Some "mdi:trash-can")]
      <= length [samples.spring_block; samples.undated_block;
                 samples.glass_block])%nat.
Proof.
  destruct (@loop_one_record_per_block (samples.externals samples.answers))
    as (Hhead & Hdate & _ & _ & Hlength).
  split; [|split].
  - apply Hhead. reflexivity.
  - apply Hdate. reflexivity.
  - apply (Hlength 3%nat 0%nat). vm_compute. reflexivity.
Defined.

Lemma loop_records_have_known_icons_witness :
  exists item heading,
    In item [samples.spring_block; samples.undated_block; samples.glass_block]
    /\ woollahra_nsw_gov_au.find "h3" None item = Some heading
    /\ JStr "Glass"
       = JStr (woollahra_nsw_gov_au.normalize
                 (strip (woollahra_nsw_gov_au.node_text heading)))
    /\ Some "mdi:trash-can"
       = Some (woollahra_nsw_gov_au.ICON_MAP_get
                 (woollahra_nsw_gov_au.normalize
                    (strip (woollahra_nsw_gov_au.node_text heading))))
    /\ In (woollahra_nsw_gov_au.ICON_MAP_get
             (woollahra_nsw_gov_au.normalize
                (strip (woollahra_nsw_gov_au.node_text heading))))
          woollahra_icons.
Proof.
  apply (@loop_records_have_known_icons (samples.externals samples.answers)
           3%nat 0%nat
           [samples.spring_block; samples.undated_block; samples.glass_block]
           [mkCollection (mkdate 2025 3 15) (JStr "Spring Clean-Up")
              (Some "mdi:delete-sweep");
            mkCollection (mkdate 2025 4 1) (JStr "Glass")
              (Some "mdi:trash-can")]
           (mkCollection (mkdate 2025 4 1) (JStr "Glass") (Some "mdi:trash-can"))).
  - vm_compute. reflexivity.
  - right. left. reflexivity.
Defined.

Lemma loop_parser_exception_propagates_witness :
  @woollahra_nsw_gov_au.loop (samples.externals samples.overflows) 3 0
    [samples.spring_block; samples.overflowing_block; samples.glass_block] []
  = Err (raised_in_library "decimal.InvalidOperation").
Proof.
  apply (proj1 (@loop_parser_exception_propagates
                  (samples.externals samples.overflows))
           3%nat [samples.spring_block] samples.overflowing_block
           [samples.glass_block]
           (woollahra_nsw_gov_au.Tag "h3" []
              [woollahra_nsw_gov_au.NavigableString "Garbage"])
           (woollahra_nsw_gov_au.Tag "div" ["next-service"]
              [woollahra_nsw_gov_au.NavigableString samples.overflowing_text])
           "decimal.InvalidOperation"
           [mkCollection (mkdate 2025 3 15) (JStr "Spring Clean-Up")
              (Some "mdi:delete-sweep")]).
  - reflexivity.
  - reflexivity.
  - vm_compute. reflexivity.
  - vm_compute. reflexivity.
Defined.

Lemma normalize_idempotent_and_ordered_witness :
  woollahra_nsw_gov_au.normalize "Spring and Summer clean up"
  = "Spring Clean-Up"
  /\ woollahra_nsw_gov_au.normalize "Green Waste" = "Green Waste".
Proof.
  destruct normalize_idempotent_and_ordered as (_ & Hplain & Hspring & _).
  split.
  - apply Hspring; vm_compute; reflexivity.
  - apply Hplain. vm_compute. reflexivity.
Defined.


(* ===================================================================== *)
(** ** The stored address and the substring test *)
(* ===================================================================== *)

Lemma append_String (c : ascii) (s t : string) :
  String c s +:+ t = String c (s +:+ t).
Proof. reflexivity. Qed.

Lemma append_Empty (t : string) : "" +:+ t = t.
Proof. reflexivity. Qed.

Lemma lstrip_decomp (s : string) :
  exists pre, s = pre +:+ lstrip s /\ all_space pre = true.
Proof.
  induction s as [|c s IH]; simpl.
  - now exists "".
  - destruct (is_space c) eqn:Hc.
    + destruct IH as (pre & Hs & Hpre). exists (String c pre). split.
      * rewrite append_String. f_equal. exact Hs.
      * simpl. now rewrite Hc, Hpre.
    + now exists "".
Qed.

Lemma lstrip_head (s : string) :
  lstrip s = "" \/ exists c t, lstrip s = String c t /\ is_space c = false.
Proof.
  induction s as [|c s IH]; simpl; [now left|].
  destruct (is_space c) eqn:Hc; [exact IH|]. right. now exists c, s.
Qed.

Lemma rstrip_decomp (s : string) :
  exists post, s = rstrip s +:+ post /\ all_space post = true.
Proof.
  induction s as [|c s (post & Hs & Hpost)]; simpl.
  - now exists "".
  - destruct (rstrip s) as [|d u] eqn:Hr.
    + rewrite append_Empty in Hs. subst post. destruct (is_space c) eqn:Hc.
      * exists (String c s). simpl. now rewrite Hc, Hpost.
      * exists s. now rewrite append_String, append_Empty.
    + exists post. rewrite append_String. split; [|assumption].
      f_equal. exact Hs.
Qed.

Lemma rstrip_idempotent (s : string) : rstrip (rstrip s) = rstrip s.
Proof.
  induction s as [|c s IH]; simpl; [reflexivity|].
  destruct (rstrip s) as [|d u] eqn:Hr.
  - destruct (is_space c) eqn:Hc; simpl; [reflexivity|]. now rewrite Hc.
  - change (rstrip (String c (String d u))) with
      (match rstrip (String d u) with
       | EmptyString =>
           if is_space c then EmptyString else String c EmptyString
       | t => String c t
       end).
    now rewrite IH.
Qed.

Lemma rstrip_keeps_head (c : ascii) (s : string) :
  is_space c = false -> exists t, rstrip (String c s) = String c t.
Proof.
  intros Hc. simpl. destruct (rstrip s); [rewrite Hc|]; eauto.
Qed.

(** X18.  The address a [Source] stores is the given address without the
    whitespace at its two ends and is otherwise the given address: the
    given address is the stored one between two runs of whitespace, the
    stored one neither starts nor ends with whitespace, and stripping it
    again changes nothing. *)
Theorem stored_address_is_stripped :
  forall address_given,
    let stored :=
      woollahra_nsw_gov_au.address
        (woollahra_nsw_gov_au.__init__ address_given) in
    (exists pre post,
        address_given = pre +:+ stored +:+ post
        /\ all_space pre = true /\ all_space post = true)
    /\ lstrip stored = stored
    /\ rstrip stored = stored
    /\ woollahra_nsw_gov_au.address (woollahra_nsw_gov_au.__init__ stored)
       = stored.
Proof.
  intros s. cbv zeta. unfold woollahra_nsw_gov_au.__init__.
  cbn [woollahra_nsw_gov_au.address]. unfold strip.
  assert (Hl : lstrip (rstrip (lstrip s)) = rstrip (lstrip s)).
  { destruct (lstrip_head s) as [->|(c & t & -> & Hc)]; [reflexivity|].
    destruct (rstrip_keeps_head c t Hc) as [u ->]. simpl. now rewrite Hc. }
  repeat split.
  - destruct (lstrip_decomp s) as (pre & Hs & Hpre).
    destruct (rstrip_decomp (lstrip s)) as (post & Ht & Hpost).
    exists pre, post. now rewrite <- Ht.
  - exact Hl.
  - apply rstrip_idempotent.
  - now rewrite Hl, rstrip_idempotent.
Qed.

Lemma prefix_spec (p s : string) :
  String.prefix p s = true <-> exists post, s = p +:+ post.
Proof.
  revert s. induction p as [|a p IH]; intros s; simpl.
  - split; [intros _; now exists s | intros _; now destruct s].
  - destruct s as [|b s]; simpl;
      [split; [discriminate|];
       intros [post Hs]; rewrite append_String in Hs; discriminate|].
    destruct (ascii_dec a b) as [<-|Hab].
    + rewrite IH. split; intros [post Hs]; exists post.
      * now rewrite append_String, Hs.
      * rewrite append_String in Hs. congruence.
    + split; [discriminate|]. intros [post Hs].
      rewrite append_String in Hs. congruence.
Qed.

(** X19.  The substring test used on headings and on error pages is exact:
    [needle in hay] holds when and only when [hay] is some text, then
    [needle], then some text. *)
Theorem contains_iff_substring :
  forall needle hay,
    contains needle hay = true
    <-> exists pre post, hay = pre +:+ needle +:+ post.
Proof.
  intros needle hay. induction hay as [|c hay IH].
  - cbn [contains]. rewrite orb_false_r, prefix_spec. split.
    + intros [post Hs]. now exists "", post.
    + intros (pre & post & Hs). destruct pre; [now exists post|discriminate].
  - cbn [contains]. rewrite orb_true_iff, prefix_spec, IH. split.
    + intros [[post Hs]|(pre & post & Hs)].
      * now exists "", post.
      * exists (String c pre), post. now rewrite append_String, Hs.
    + intros (pre & post & Hs). destruct pre as [|a pre].
      * left. now exists post.
      * right. rewrite append_String in Hs. injection Hs as _ Hs.
        now exists pre, post.
Qed.

(** X20.  A Barking & Dagenham body whose [results] is no list: null, a
    boolean and a number cannot be iterated and raise [TypeError]; an
    object or a string is iterated, and its first key or character, being
    a string, raises [TypeError] when the loop body subscripts it; an
    empty list, object or string gives no record and no error. *)
Theorem lbbd_results_of_wrong_shape :
  forall rubbish_data results,
    subscript rubbish_data "results" = Ok results ->
    (forall items, results <> JArr items) ->
    lbbd_gov_uk.fetch (lbbd_gov_uk.body rubbish_data)
    = match results with
      | JObj [] | JStr EmptyString => Ok []
      | _ => Err TypeError
      end.
Proof.
  intros rubbish_data results Hres Hshape. unfold lbbd_gov_uk.fetch.
  rewrite Hres. cbn [res_bind].
  destruct results as [|b|n|s|items|members]; try reflexivity.
  - destruct s; reflexivity.
  - now destruct (Hshape items).
  - destruct members as [|[k v] members]; reflexivity.
Qed.

Lemma stored_address_is_stripped_witness :
  lstrip (woollahra_nsw_gov_au.address samples.paddington)
  = woollahra_nsw_gov_au.address samples.paddington.
Proof.
  exact (proj1 (proj2 (stored_address_is_stripped
                         " 13 Paddington Street PADDINGTON NSW 2021 "))).
Defined.

Lemma contains_iff_substring_witness :
  contains "clean" "spring clean up service" = true.
Proof.
  apply (proj2 (contains_iff_substring "clean" "spring clean up service")).
  exists "spring ", " up service". reflexivity.
Defined.

Lemma lbbd_results_of_wrong_shape_witness :
  lbbd_gov_uk.fetch
    (lbbd_gov_uk.body (JObj [("results", JObj [("error", JStr "no bins")])]))
  = Err TypeError.
Proof.
  apply (lbbd_results_of_wrong_shape
           (JObj [("results", JObj [("error", JStr "no bins")])])
           (JObj [("error", JStr "no bins")])).
  - reflexivity.
  - intros items. discriminate.
Defined.
